(** * A shallow embedding of the Docker Registry v2 client
      (lib/www-authenticate.ts, lib/registry-client-v2.ts,
       lib/docker-json-client.ts) and proofs about its behaviour.

    Strings are Rocq strings of 8-bit code units: the JavaScript strings of
    the source are UTF-16, and the model covers the code units below 256.
    Character classes of the regular expressions are restricted accordingly:
    [\w] is [A-Za-z0-9_], [\s] is tab, LF, VT, FF, CR, space and U+00A0, and
    the line terminators excluded by [.] are LF and CR. *)

From Stdlib Require Import String Ascii ZArith List Bool Lia.
From Stdlib Require Import Numbers.DecimalString.
Import ListNotations.
Open Scope string_scope.
Open Scope Z_scope.
Set Warnings "-register-all".

(* ------------------------------------------------------------------ *)
(** ** Characters and strings *)

Definition code (c : ascii) : Z := Z.of_nat (nat_of_ascii c).

(** [\w] *)
Definition is_word (c : ascii) : bool :=
  let n := code c in
  ((65 <=? n) && (n <=? 90)) || ((97 <=? n) && (n <=? 122))
  || ((48 <=? n) && (n <=? 57)) || (n =? 95).

(** [\s] (and the characters removed by [String.prototype.trim]) *)
Definition is_space (c : ascii) : bool :=
  let n := code c in
  ((9 <=? n) && (n <=? 13)) || (n =? 32) || (n =? 160).

(** Line terminators, which [.] does not match. *)
Definition is_line_term (c : ascii) : bool :=
  let n := code c in (n =? 10) || (n =? 13).

Fixpoint take_while (p : ascii -> bool) (s : string) : string :=
  match s with
  | EmptyString => EmptyString
  | String c t => if p c then String c (take_while p t) else EmptyString
  end.

Fixpoint drop_while (p : ascii -> bool) (s : string) : string :=
  match s with
  | EmptyString => EmptyString
  | String c t => if p c then drop_while p t else s
  end.

Fixpoint rev_string (s : string) : string :=
  match s with
  | EmptyString => EmptyString
  | String c t => rev_string t ++ String c EmptyString
  end.

(** [String.prototype.trim] *)
Definition trim (s : string) : string :=
  rev_string (drop_while is_space (rev_string (drop_while is_space s))).

Definition chr (n : nat) : string := String (ascii_of_nat n) EmptyString.

(** The double quote, as a one-character string. *)
Definition DQ : string := chr 34.

(* ------------------------------------------------------------------ *)
(** ** Results of JavaScript code: a value or a thrown exception *)

(** JSON values as [JSON.parse] produces them, plus [undefined].
    Numbers are integers in this model. *)
Inductive jsval :=
| JUndef
| JNull
| JBool (b : bool)
| JNum (n : Z)
| JStr (s : string)
| JArr (l : list jsval)
| JObj (fields : list (string * jsval)).

(** A thrown exception: an [Error] with its message and, when the HTTP
    client attached one, the status of the response ([err.resp.status]);
    or one of the built-in errors the code can raise. *)
Inductive exn :=
| Error (message : string) (resp_status : option Z)
| TypeError
| SyntaxError.

Inductive result (A : Type) :=
| Ok (a : A)
| Throw (e : exn).
Arguments Ok {A} a.
Arguments Throw {A} e.

Definition bind_res {A B} (r : result A) (f : A -> result B) : result B :=
  match r with Ok a => f a | Throw e => Throw e end.

Notation "'let!' x := r 'in' k" := (bind_res r (fun x => k))
  (at level 200, x name, r at level 100, right associativity).

(* ------------------------------------------------------------------ *)
(** ** lib/www-authenticate.ts *)

Module WWWAuth.

(** [const ParseAuth]: the regex [(\w+)\s+] followed by a second group
    matching [.*]; [to_parse.match(ParseAuth)]
    returns the first (leftmost) match, with groups 1 and 2.
    At a start position the greedy [\w+] takes the whole run of word
    characters; a shorter run would be followed by a word character, so
    backtracking cannot help [\s+].  Group 2 stops at a line terminator. *)
Definition match_at (s : string) : option (string * string) :=
  let w := take_while is_word s in
  match w with
  | EmptyString => None
  | _ =>
      match drop_while is_word s with
      | String c _ as rest =>
          if is_space c then
            Some (w, take_while (fun c => negb (is_line_term c))
                                (drop_while is_space rest))
          else None
      | EmptyString => None
      end
  end.

Fixpoint ParseAuth_match (s : string) : option (string * string) :=
  match match_at s with
  | Some m => Some m
  | None =>
      match s with
      | EmptyString => None
      | String _ t => ParseAuth_match t
      end
  end.

(** [const Separators]: a captured class of three separators, the double
    quote, the comma and the equals sign. *)
Definition is_sep (c : ascii) : bool :=
  let n := code c in (n =? 34) || (n =? 44) || (n =? 61).

(** [header.split(Separators)]: since the separator is captured, the
    pieces between separators alternate with the separators themselves. *)
Fixpoint split_seps (s : string) : list string :=
  match s with
  | EmptyString => [EmptyString]
  | String c t =>
      let r := split_seps t in
      if is_sep c then EmptyString :: String c EmptyString :: r
      else match r with
           | h :: r' => String c h :: r'
           | [] => [String c EmptyString]
           end
  end.

(** [CanonicalNumericIndexString] for array indices: the decimal digits of
    the key, read from the left; [None] at a non-digit. *)
Fixpoint dec_value (acc : Z) (s : string) : option Z :=
  match s with
  | EmptyString => Some acc
  | String c t =>
      if (48 <=? code c) && (code c <=? 57)
      then dec_value (acc * 10 + (code c - 48)) t
      else None
  end.

(** A key that is an array index: the canonical decimal form (no leading
    zero, except for ["0"] itself) of an integer below 2^32 - 1. *)
Definition array_index (k : string) : option Z :=
  match k with
  | EmptyString => None
  | String c t =>
      if (code c =? 48) && negb (String.eqb t "") then None else
      match dec_value 0 k with
      | Some n => if n <=? 4294967294 then Some n else None
      | None => None
      end
  end.

(** A [Record<string,string>] made by [Object.create(null)], as the list of
    its own properties in enumeration order: the array-index keys first, in
    ascending numeric order, then the other keys in order of creation. *)
Definition obj := list (string * string).

Fixpoint obj_get (k : string) (o : obj) : option string :=
  match o with
  | [] => None
  | (k', v') :: o' => if String.eqb k k' then Some v' else obj_get k o'
  end.

(** Assignment to a present key: the value is replaced in place. *)
Fixpoint obj_update (k v : string) (o : obj) : obj :=
  match o with
  | [] => []
  | (k', v') :: o' =>
      if String.eqb k k' then (k, v) :: o' else (k', v') :: obj_update k v o'
  end.

(** A new array-index key [k] with value [n] goes after the smaller
    indices. *)
Fixpoint obj_insert_index (n : Z) (k v : string) (o : obj) : obj :=
  match o with
  | [] => [(k, v)]
  | (k', v') :: o' =>
      match array_index k' with
      | Some n' => if n' <? n then (k', v') :: obj_insert_index n k v o'
                   else (k, v) :: o
      | None => (k, v) :: o
      end
  end.

(** [o[k] = v]: a present key is updated, a new array index is placed among
    the indices, any other new key is appended. *)
Definition obj_set (k v : string) (o : obj) : obj :=
  match obj_get k o with
  | Some _ => obj_update k v o
  | None =>
      match array_index k with
      | Some n => obj_insert_index n k v o
      | None => (o ++ [(k, v)])%list
      end
  end.

(** JavaScript string concatenation with a [string | null] operand. *)
Definition str_of (v : option string) : string :=
  match v with Some s => s | None => "null" end.

(** The loop of [Parser.parse_params]: either still running, with the
    locals [state], [key] and [value] and the (partially filled)
    [this.parms], or returned early with an error message. *)
Inductive conf :=
| Run (state : nat) (key value : option string) (parms : obj)
| Ret (parms : obj) (err : string).

(** One iteration of the [for] loop, on token [tok]. *)
Definition step (c : conf) (tok : string) : conf :=
  match c with
  | Ret _ _ => c
  | Run state key value parms =>
      if String.eqb tok "" then c else
      match state with
      | 0%nat => Run 1 (Some (trim tok)) value parms
      | 1%nat =>
          if negb (String.eqb "=" tok)
          then Ret parms ("Equal sign was expected after " ++ str_of key)
          else Run 2 key value parms
      | 2%nat =>
          if String.eqb DQ tok then Run 3 key (Some "") parms
          else Run 9 key (Some (trim tok)) (obj_set (str_of key) (trim tok) parms)
      | 3%nat =>
          if String.eqb DQ tok then Run 8 key value parms
          else Run 3 key (Some (str_of value ++ tok)) parms
      | 8%nat =>
          if String.eqb DQ tok then Run 3 key (Some (str_of value ++ DQ)) parms
          else if String.eqb "," tok
          then Run 0 key value (obj_set (str_of key) (str_of value) parms)
          else Ret parms ("Unexpected token (" ++ tok ++ ") after "
                          ++ str_of value ++ DQ)
      | 9%nat =>
          if negb (String.eqb "," tok)
          then Ret parms ("Comma expected after " ++ str_of value)
          else Run 0 key value parms
      | _ => c
      end
  end.

(** The [switch] on the terminal state; the result is the final
    [this.parms] and the returned error, if any. *)
Definition finish (c : conf) : obj * option string :=
  match c with
  | Ret parms e => (parms, Some e)
  | Run state key value parms =>
      match state with
      | 0%nat | 9%nat => (parms, None)
      | 8%nat => (obj_set (str_of key) (str_of value) parms, None)
      | _ => (parms, Some "Unexpected end of www-authenticate value.")
      end
  end.

(** [Parser.parse_params(header)], starting from the parser's [parms]. *)
Definition parse_params (parms : obj) (header : string) : obj * option string :=
  finish (fold_left step (split_seps header) (Run 0 None None parms)).

(** The fields of a [Parse_WWW_Authenticate] object. *)
Record challenge := {
  scheme : string;
  parms : obj;
  err : option string
}.

(** [new Parse_WWW_Authenticate(to_parse)]: [m[1]] on a [null] match
    throws a [TypeError]. *)
Definition Parse_WWW_Authenticate (to_parse : string) : result challenge :=
  match ParseAuth_match to_parse with
  | None => Throw TypeError
  | Some (m1, m2) =>
      let (p, e) := parse_params [] m2 in
      match e with
      | Some er =>
          if String.eqb er "" then Ok {| scheme := m1; parms := p; err := None |}
          else Ok {| scheme := ""; parms := []; err := Some er |}
      | None => Ok {| scheme := m1; parms := p; err := None |}
      end
  end.

(** [new Parse_Authentication_Info(to_parse)]: the scheme is [Digest] and
    the whole header is the parameter list. *)
Definition Parse_Authentication_Info (to_parse : string) : challenge :=
  let (p, e) := parse_params [] to_parse in
  match e with
  | Some er =>
      if String.eqb er "" then {| scheme := "Digest"; parms := p; err := None |}
      else {| scheme := ""; parms := []; err := Some er |}
  | None => {| scheme := "Digest"; parms := p; err := None |}
  end.

End WWWAuth.

(* ------------------------------------------------------------------ *)
(** ** JavaScript values: truthiness, property access, conversions *)

Module JS.

Definition truthy (v : jsval) : bool :=
  match v with
  | JUndef | JNull => false
  | JBool b => b
  | JNum n => negb (n =? 0)
  | JStr s => negb (String.eqb s "")
  | JArr _ | JObj _ => true
  end.

Definition nullish (v : jsval) : bool :=
  match v with JUndef | JNull => true | _ => false end.

Fixpoint assoc (k : string) (fs : list (string * jsval)) : option jsval :=
  match fs with
  | [] => None
  | (k', v) :: fs' => if String.eqb k k' then Some v else assoc k fs'
  end.

Definition Z_to_string (n : Z) : string :=
  NilEmpty.string_of_int (Z.to_int n).

(** A canonical array index ("0", "1", ...), as property keys of arrays
    and strings are. *)
Definition index_of (k : string) : option nat :=
  match NilEmpty.uint_of_string k with
  | Some u =>
      let n := Nat.of_uint u in
      if String.eqb (NilEmpty.string_of_uint (Nat.to_uint n)) k
      then Some n else None
  | None => None
  end.

(** [v[k]] on a value that is not [undefined] or [null]; [v?.[k]]. *)
Definition prop (v : jsval) (k : string) : jsval :=
  match v with
  | JObj fs => match assoc k fs with Some x => x | None => JUndef end
  | JArr l =>
      if String.eqb k "length" then JNum (Z.of_nat (List.length l)) else
      match index_of k with Some i => nth i l JUndef | None => JUndef end
  | JStr s =>
      if String.eqb k "length" then JNum (Z.of_nat (String.length s)) else
      match index_of k with
      | Some i => match String.get i s with
                  | Some c => JStr (String c EmptyString)
                  | None => JUndef
                  end
      | None => JUndef
      end
  | _ => JUndef
  end.

(** [v.k]: a [TypeError] on [undefined] and [null]. *)
Definition get_prop (v : jsval) (k : string) : result jsval :=
  if nullish v then Throw TypeError else Ok (prop v k).

Definition is_array (v : jsval) : bool :=
  match v with JArr _ => true | _ => false end.

Fixpoint join (sep : string) (l : list string) : string :=
  match l with
  | [] => ""
  | [x] => x
  | x :: l' => x ++ sep ++ join sep l'
  end.

(** [ToString] as string concatenation and template literals apply it.
    A JSON object converts through [Object.prototype.toString] unless an own
    [toString] property (never callable in JSON) hides it, and then no
    conversion succeeds; an array converts through [join]. *)
Fixpoint to_str (v : jsval) : result string :=
  match v with
  | JUndef => Ok "undefined"
  | JNull => Ok "null"
  | JBool b => Ok (if b then "true" else "false")
  | JNum n => Ok (Z_to_string n)
  | JStr s => Ok s
  | JArr l =>
      let fix elems (l : list jsval) : result (list string) :=
        match l with
        | [] => Ok []
        | x :: l' =>
            let! sx := (if nullish x then Ok "" else to_str x) in
            let! sl := elems l' in Ok (sx :: sl)
        end in
      let! ss := elems l in Ok (join "," ss)
  | JObj fs =>
      match assoc "toString" fs with
      | Some _ => Throw TypeError
      | None => Ok "[object Object]"
      end
  end.

Definition is_digit (c : ascii) : bool :=
  let n := code c in (48 <=? n) && (n <=? 57).

Fixpoint digits_value (s : string) (acc : Z) : option Z :=
  match s with
  | EmptyString => Some acc
  | String c t =>
      if is_digit c then digits_value t (10 * acc + (code c - 48)) else None
  end.

(** [ToNumber] of a string, for decimal integer literals ([None] is NaN).
    Fractions, exponents, hexadecimal and [Infinity] are outside the model. *)
Definition string_to_number (s : string) : option Z :=
  match trim s with
  | EmptyString => Some 0
  | String c t as u =>
      if Nat.eqb (nat_of_ascii c) 45 then
        match t with EmptyString => None | _ => option_map Z.opp (digits_value t 0) end
      else if Nat.eqb (nat_of_ascii c) 43 then
        match t with EmptyString => None | _ => digits_value t 0 end
      else digits_value u 0
  end.

(** [ToNumber] ([None] is NaN). *)
Definition to_number (v : jsval) : result (option Z) :=
  match v with
  | JUndef => Ok None
  | JNull => Ok (Some 0)
  | JBool b => Ok (Some (if b then 1 else 0))
  | JNum n => Ok (Some n)
  | JStr s => Ok (string_to_number s)
  | JArr _ | JObj _ => let! s := to_str v in Ok (string_to_number s)
  end.

(** [v > n] for a number [n]. *)
Definition gt_num (v : jsval) (n : Z) : result bool :=
  let! x := to_number v in
  Ok (match x with Some m => n <? m | None => false end).

(** [v === n] for a number literal, [v === s] for a string literal. *)
Definition eq_num (v : jsval) (n : Z) : bool :=
  match v with JNum m => m =? n | _ => false end.

Definition eq_str (v : jsval) (s : string) : bool :=
  match v with JStr t => String.eqb t s | _ => false end.

(** [a === b] on two values read from a parsed JSON document: distinct
    objects and arrays built by [JSON.parse] are never identical. *)
Definition strict_eq (a b : jsval) : bool :=
  match a, b with
  | JUndef, JUndef | JNull, JNull => true
  | JBool x, JBool y => Bool.eqb x y
  | JNum x, JNum y => x =? y
  | JStr x, JStr y => String.eqb x y
  | _, _ => false
  end.

(** The message of a thrown value, as [err.message] reads it.  The engine's
    texts for its built-in errors are not modelled. *)
Definition exn_message (e : exn) : string :=
  match e with
  | Error m _ => m
  | TypeError => "TypeError"
  | SyntaxError => "SyntaxError"
  end.

(** An [Error] object seen as a JavaScript value: its own [message]
    property (the [resp], [restCode] and [restText] properties attached by
    the HTTP client are not read by the functions applied to it). *)
Definition error_obj (m : string) : jsval := JObj [("message", JStr m)].

End JS.

(* ------------------------------------------------------------------ *)
(** ** String operations of the source *)

Fixpoint starts_with (p s : string) : bool :=
  match p, s with
  | EmptyString, _ => true
  | String a p', String b s' => Ascii.eqb a b && starts_with p' s'
  | _, _ => false
  end.

Definition lower (c : ascii) : ascii :=
  let n := nat_of_ascii c in
  if (Nat.leb 65 n && Nat.leb n 90)%bool then ascii_of_nat (n + 32) else c.

(** [String.prototype.toLowerCase] on ASCII letters. *)
Fixpoint to_lower (s : string) : string :=
  match s with
  | EmptyString => EmptyString
  | String c t => String (lower c) (to_lower t)
  end.

(** [s.split(', ')] *)
Fixpoint split_comma_space (s : string) : list string :=
  match s with
  | EmptyString => [EmptyString]
  | String c t =>
      let rest_split :=
        match split_comma_space t with
        | h :: r => String c h :: r
        | [] => [String c EmptyString]
        end in
      match t with
      | String d u =>
          if (Nat.eqb (nat_of_ascii c) 44 && Nat.eqb (nat_of_ascii d) 32)%bool
          then EmptyString :: split_comma_space u
          else rest_split
      | EmptyString => rest_split
      end
  end.

(** [s.split(/[\s,]+/g)]: the pieces between maximal runs of white space
    and commas. *)
Definition is_ws_comma (c : ascii) : bool := is_space c || (code c =? 44).

Fixpoint split_ws_comma (s : string) : list string :=
  match s with
  | EmptyString => [EmptyString]
  | String c t =>
      let r := split_ws_comma t in
      if is_ws_comma c then
        match t with
        | String d _ => if is_ws_comma d then r else EmptyString :: r
        | EmptyString => EmptyString :: r
        end
      else match r with
           | h :: r' => String c h :: r'
           | [] => [String c EmptyString]
           end
  end.

(** [/^\s*$/.test(s)] *)
Definition blank (s : string) : bool :=
  String.eqb (drop_while is_space s) "".

Definition drop (n : nat) (s : string) : string :=
  substring n (String.length s - n) s.

(* ------------------------------------------------------------------ *)
(** ** HTTP: headers, requests, responses *)

(** A [Headers] object, with lower-case names. *)
Definition headers := list (string * string).

Fixpoint hdr_get (k : string) (h : headers) : option string :=
  match h with
  | [] => None
  | (k', v) :: h' => if String.eqb k k' then Some v else hdr_get k h'
  end.

Definition hdr_has (k : string) (h : headers) : bool :=
  match hdr_get k h with Some _ => true | None => false end.

Definition hdr_delete (k : string) (h : headers) : headers :=
  filter (fun kv => negb (String.eqb k (fst kv))) h.

Definition hdr_set (k v : string) (h : headers) : headers :=
  (hdr_delete k h ++ [(k, v)])%list.

(** A request as [fetch] receives it: method, base URL of the client, path,
    headers and redirect mode. *)
Record http_request := {
  rq_method : string;
  rq_url : string;
  rq_path : string;
  rq_headers : headers;
  rq_redirect : string
}.

(** A response.  [body_text] is the decoded body; [body_error] is the error
    [dockerBody()] raises on it (Content-MD5 or Content-Length mismatch),
    if any; [body_json] is what [JSON.parse] gives on the body text
    ([None] when it throws). *)
Record response := {
  status : Z;
  resp_headers : headers;
  body_text : string;
  body_error : option string;
  body_json : option jsval
}.

(** [DockerResponse.dockerBody()] *)
Definition dockerBody (r : response) : result string :=
  match body_error r with
  | Some m => Throw (Error m None)
  | None => Ok (body_text r)
  end.

(** [DockerResponse.dockerJson()]: [undefined] for an empty or blank body. *)
Definition dockerJson (r : response) : result jsval :=
  let! text := dockerBody r in
  if (negb (String.eqb text "") && negb (blank text))%bool then
    match body_json r with
    | Some v => Ok v
    | None => Throw (Error ("Invalid JSON in response: "
                            ++ JS.exn_message SyntaxError) None)
    end
  else Ok JUndef.

(** [Response.json()] *)
Definition resp_json (r : response) : result jsval :=
  match body_json r with Some v => Ok v | None => Throw SyntaxError end.

(** [this.dockerBody()] once more, after [dockerJson()] has read the body
    when [read_before] holds: the decoded body is cached when that read
    succeeded; when it failed nothing was cached, and reading the consumed
    stream again rejects with a [TypeError]. *)
Definition dockerBody_after (read_before : bool) (r : response) : result string :=
  if read_before then
    match body_error r with
    | None => Ok (body_text r)
    | Some _ => Throw TypeError
    end
  else dockerBody r.

(** [DockerResponse.dockerError(baseMsg)]: the error object it resolves to,
    or the error it rejects with. *)
Definition dockerError (r : response) (baseMsg : string) : result exn :=
  let! message :=
    (if 400 <=? status r then
       let obj := match dockerJson r with Ok v => v | Throw _ => JNull end in
       let e1 := JS.prop obj "error" in
       let e2 := if JS.nullish e1 then JS.prop (JS.prop obj "errors") "0" else e1 in
       let errObj := if JS.nullish e2 then obj else e2 in
       if (JS.truthy (JS.prop errObj "code") || JS.truthy (JS.prop errObj "message"))%bool
       then
         let restCode := if JS.truthy (JS.prop errObj "code")
                         then JS.prop errObj "code" else JStr "" in
         let restText := if JS.truthy (JS.prop errObj "message")
                         then JS.prop errObj "message" else JStr "" in
         if (JS.truthy restCode && JS.truthy restText)%bool then
           let! c := JS.to_str restCode in
           let! t := JS.to_str restText in
           Ok ("(" ++ c ++ ") " ++ t)
         else Ok ""
       else Ok ""
     else Ok "") in
  let! message :=
    (if String.eqb message "" then
       match hdr_get "content-type" (resp_headers r) with
       | Some ct => if starts_with "text/html" ct then Ok "(HTML body)"
                    else let! b := dockerBody_after (400 <=? status r) r in
                            Ok (substring 0 1024 b)
       | None => let! b := dockerBody_after (400 <=? status r) r in
                 Ok (substring 0 1024 b)
       end
     else Ok message) in
  Ok (Error (baseMsg ++ ": " ++ message) (Some (status r))).

(** A [DockerJsonClient]: its [accept], [url] and [userAgent] fields. *)
Record djclient := {
  dj_accept : string;
  dj_url : string;
  dj_userAgent : string
}.

(** [new DockerJsonClient({url, userAgent})]: [accept] defaults to
    ['application/json']. *)
Definition mk_djclient (url ua : string) : djclient :=
  {| dj_accept := "application/json"; dj_url := url; dj_userAgent := ua |}.

(** The headers [DockerJsonClient.request] sends. *)
Definition request_headers (c : djclient) (h : headers) : headers :=
  let h1 := if (negb (hdr_has "accept" h) && negb (String.eqb (dj_accept c) ""))%bool
            then hdr_set "accept" (dj_accept c) h else h in
  hdr_set "user-agent" (dj_userAgent c) h1.

(** The base message of the unexpected-status error. *)
Definition unexpected_msg (st : Z) (path : string) : string :=
  "Received unexpected HTTP " ++ JS.Z_to_string st ++ " from " ++ path.

(** The error [request] throws on an unexpected status: the [dockerError],
    or, when building it fails, the error of the [.catch]. *)
Definition unexpected_status_error (r : response) (path : string) : exn :=
  match dockerError r (unexpected_msg (status r) path) with
  | Ok e => e
  | Throw e =>
      Error (unexpected_msg (status r) path
             ++ " - and failed to parse error body: " ++ JS.exn_message e) None
  end.

(** [_getRegistryErrorMessage(err)] *)
Definition _getRegistryErrorMessage (err : jsval) : result jsval :=
  let! body := JS.get_prop err "body" in
  let! c1 :=
    (if JS.truthy body then
       let! errs := JS.get_prop body "errors" in
       if JS.is_array errs then
         let! e0 := JS.get_prop errs "0" in Ok (JS.truthy e0)
       else Ok false
     else Ok false) in
  if c1 then
    let! errs := JS.get_prop body "errors" in
    let! e0 := JS.get_prop errs "0" in
    JS.get_prop e0 "message"
  else
  let! c2 :=
    (if JS.truthy body then
       let! d := JS.get_prop body "details" in Ok (JS.truthy d)
     else Ok false) in
  if c2 then JS.get_prop body "details" else
  let! errs := JS.get_prop err "errors" in
  let! c3 :=
    (if JS.is_array errs then
       let! e0 := JS.get_prop errs "0" in
       let! m := JS.get_prop e0 "message" in Ok (JS.truthy m)
     else Ok false) in
  if c3 then
    let! e0 := JS.get_prop errs "0" in JS.get_prop e0 "message"
  else
  let! m := JS.get_prop err "message" in
  if JS.truthy m then Ok m else
  let! s := JS.to_str err in Ok (JStr s).

Definition MAX_REGISTRY_ERROR_LENGTH : nat := 10000.

(** [typeof v === 'object'] *)
Definition is_object (v : jsval) : bool :=
  match v with JObj _ | JArr _ | JNull => true | _ => false end.

(** [v.hasOwnProperty(k)] on a value read from JSON: a [TypeError] on
    [null] and [undefined], and when an own property of that name hides
    the method. *)
Definition has_own (v : jsval) (k : string) : result bool :=
  match v with
  | JUndef | JNull => Throw TypeError
  | JObj fs =>
      match JS.assoc "hasOwnProperty" fs with
      | Some _ => Throw TypeError
      | None => Ok (match JS.assoc k fs with Some _ => true | None => false end)
      end
  | JArr l =>
      Ok (String.eqb k "length"
          || match JS.index_of k with Some i => Nat.ltb i (List.length l) | None => false end)
  | JStr t =>
      Ok (String.eqb k "length"
          || match JS.index_of k with Some i => Nat.ltb i (String.length t) | None => false end)
  | JBool _ | JNum _ => Ok false
  end.

Fixpoint map_res {A B} (f : A -> result B) (l : list A) : result (list B) :=
  match l with
  | [] => Ok []
  | x :: l' => let! y := f x in let! ys := map_res f l' in Ok (y :: ys)
  end.

(** [Array.prototype.join(sep)]: [undefined] and [null] elements give the
    empty string. *)
Definition join_values (sep : string) (l : list jsval) : result string :=
  let! ss := map_res (fun x => if JS.nullish x then Ok "" else JS.to_str x) l in
  Ok (JS.join sep ss).

Section ErrMessage.

(** [JSON.parse] on a string: [None] when it throws. *)
Variable JSON_parse : string -> option jsval.

(** The part of [_getRegistryErrMessage] after the string case, on [obj]. *)
Definition errmsg_from_obj (obj : jsval) : result jsval :=
  if negb (is_object obj) then Ok JNull else
  let! own := has_own obj "errors" in
  if negb own then Ok JNull else
  let! errors := JS.get_prop obj "errors" in
  if negb (JS.is_array errors) then Ok JNull else
  let! len := JS.get_prop errors "length" in
  if JS.eq_num len 1 then
    let! e0 := JS.get_prop errors "0" in
    JS.get_prop e0 "message"
  else
    match errors with
    | JArr l =>
        let! ms := map_res (fun o => JS.get_prop o "message") l in
        let! s := join_values ", " ms in
        Ok (JStr s)
    | _ => Ok JNull
    end.

(** [_getRegistryErrMessage(body)]; [null] is [JNull]. *)
Definition _getRegistryErrMessage (body : jsval) : result jsval :=
  if negb (JS.truthy body) then Ok JNull else
  match body with
  | JStr t =>
      if Nat.leb (String.length t) MAX_REGISTRY_ERROR_LENGTH then
        match JSON_parse t with
        | Some v => errmsg_from_obj v
        | None => Ok body
        end
      else errmsg_from_obj body
  | _ => errmsg_from_obj body
  end.

End ErrMessage.

(** [_makeAuthScope(resource, name, actions)] *)
Definition _makeAuthScope (resource name : string) (actions : list string) : string :=
  resource ++ ":" ++ name ++ ":" ++ JS.join "," actions.

(** [AuthInfo] *)
Record AuthInfo := {
  ai_type : option string;
  ai_username : option string;
  ai_password : option string;
  ai_token : option string
}.

Definition no_auth : AuthInfo :=
  {| ai_type := None; ai_username := None; ai_password := None; ai_token := None |}.

Definition truthy_str (o : option string) : bool :=
  match o with Some s => negb (String.eqb s "") | None => false end.

Definition or_empty (o : option string) : string :=
  match o with Some s => s | None => "" end.

(** [`${x}`] for an optional string ([undefined] when absent). *)
Definition str_or_undef (o : option string) : string :=
  match o with Some s => s | None => "undefined" end.

(** The media types. *)
Definition MEDIATYPE_MANIFEST_V2 : string :=
  "application/vnd.docker.distribution.manifest.v2+json".
Definition MEDIATYPE_MANIFEST_LIST_V2 : string :=
  "application/vnd.docker.distribution.manifest.list.v2+json".

(* ------------------------------------------------------------------ *)
(** ** The registry client: state, effects and operations *)

(** The fields of a [RegistryClientV2] the modelled operations use. *)
Record client := {
  c_insecure : bool;
  remoteName : option string;
  localName : option string;
  c_acceptManifestLists : bool;
  c_maxSchemaVersion : Z;
  c_username : option string;
  c_password : option string;
  c_scopes : list string;
  _loggedIn : bool;
  _loggedInScope : option string;
  _authInfo : option AuthInfo;
  _headers : headers;
  _url : string;
  userAgent : string
}.

(** The state the operations run in: the client object, the requests sent
    so far, and the scopes of the network login sequences started so far
    (one entry per run of the module-level [login] function). *)
Record St := {
  cl : client;
  sent : list http_request;
  logins : list string
}.

(** An [async] computation: state passing with exceptions. *)
Definition M (A : Type) := St -> St * result A.

Definition ret {A} (a : A) : M A := fun s => (s, Ok a).

Definition bindM {A B} (m : M A) (f : A -> M B) : M B :=
  fun s => let (s1, r) := m s in
           match r with Ok a => f a s1 | Throw e => (s1, Throw e) end.

Notation "'let*' x := m 'in' k" := (bindM m (fun x => k))
  (at level 200, x name, m at level 100, right associativity).

Definition lift {A} (r : result A) : M A := fun s => (s, r).

Definition throwM {A} (e : exn) : M A := lift (Throw e).

(** [m.catch(h)] / [try ... catch] *)
Definition catchM {A} (m : M A) (h : exn -> M A) : M A :=
  fun s => let (s1, r) := m s in
           match r with Ok a => (s1, Ok a) | Throw e => h e s1 end.

Definition get_cl : M client := fun s => (s, Ok (cl s)).

Definition put_cl (c : client) : M unit :=
  fun s => ({| cl := c; sent := sent s; logins := logins s |}, Ok tt).

Definition record_login (scope : string) : M unit :=
  fun s => ({| cl := cl s; sent := sent s; logins := (logins s ++ [scope])%list |}, Ok tt).

(** The platform functions the code calls ([fetch], [URL],
    [URLSearchParams], [btoa], [encodeURI]) and the [DEFAULT_USERAGENT]
    constant of common.ts. *)
Record Platform := {
  (** The server: the response [fetch] gets for a request. *)
  p_fetch : http_request -> response;
  (** [new URL(s)]: its [origin] and [href], or [None] when it throws. *)
  p_url_parse : string -> option (string * string);
  (** [new URL(location, new URL(path, base))]: [origin] and [href]. *)
  p_url_resolve : string -> string -> string -> option (string * string);
  (** [URLSearchParams.prototype.toString] *)
  p_form_encode : list (string * string) -> string;
  p_btoa : string -> string;
  p_encodeURI : string -> string;
  p_DEFAULT_USERAGENT : string
}.

Section Registry.

Variable P : Platform.
Local Abbreviation fetch := (p_fetch P).
Local Abbreviation url_parse := (p_url_parse P).
Local Abbreviation url_resolve := (p_url_resolve P).
Local Abbreviation form_encode := (p_form_encode P).
Local Abbreviation btoa := (p_btoa P).
Local Abbreviation encodeURI := (p_encodeURI P).
Local Abbreviation DEFAULT_USERAGENT := (p_DEFAULT_USERAGENT P).

(** [DockerJsonClient.request(opts)]: sends the request, then throws the
    unexpected-status error unless the status is expected. *)
Definition request (c : djclient) (method path : string) (h : headers)
    (expectStatus : list Z) (redirect : string) : M response :=
  fun s =>
    let rq := {| rq_method := method; rq_url := dj_url c; rq_path := path;
                 rq_headers := request_headers c h; rq_redirect := redirect |} in
    let r := fetch rq in
    let s1 := {| cl := cl s; sent := (sent s ++ [rq])%list; logins := logins s |} in
    if existsb (Z.eqb (status r)) expectStatus then (s1, Ok r)
    else (s1, Throw (unexpected_status_error r path)).

Definition ua_or_default (ua : string) : string :=
  if String.eqb ua "" then DEFAULT_USERAGENT else ua.

Definition _basicAuthHeader (username password : string) : string :=
  "Basic " ++ btoa (username ++ ":" ++ password).

(** [_setAuthHeaderFromAuthInfo(headers, authInfo)] *)
Definition _setAuthHeaderFromAuthInfo (h : headers) (ai : AuthInfo) : headers :=
  if truthy_str (ai_token ai) then
    hdr_set "authorization" ("Bearer " ++ or_empty (ai_token ai)) h
  else if (truthy_str (ai_username ai) || truthy_str (ai_password ai))%bool then
    hdr_set "authorization"
      (_basicAuthHeader (or_empty (ai_username ai)) (or_empty (ai_password ai))) h
  else hdr_delete "authorization" h.

(** [ping(opts)] against the registry URL: [GET /v2/]. *)
Definition ping (url ua : string) : M response :=
  let* r := request (mk_djclient url (ua_or_default ua)) "GET" "/v2/" []
                    [200; 401; 404] "manual" in
  let* _ := lift (dockerBody r) in
  ret r.

(** The options of [_getToken]. *)
Record TokenOpts := {
  t_realm : option string;
  t_service : option string;
  t_scopes : list string;
  t_username : option string;
  t_password : option string;
  t_insecure : bool;
  t_userAgent : string
}.

(** [/^(\w+):\/\//.exec(tokenUrl)], group 1. *)
Definition realm_scheme (s : string) : option string :=
  let w := take_while is_word s in
  match w with
  | EmptyString => None
  | _ => if starts_with "://" (drop_while is_word s) then Some w else None
  end.

(** The first part of [_getToken]: the token URL, the client and the
    headers of the token request. *)
Definition token_request (o : TokenOpts) : result (djclient * string * headers) :=
  let realm := str_or_undef (t_realm o) in
  let! tokenUrl :=
    (match realm_scheme realm with
     | None => Ok ((if t_insecure o then "http" else "https") ++ "://" ++ realm)
     | Some m =>
         if (String.eqb m "http" || String.eqb m "https")%bool then Ok realm
         else Throw (Error ("unsupported scheme for WWW-Authenticate realm "
                            ++ DQ ++ realm ++ DQ ++ ": " ++ DQ ++ m ++ DQ) None)
     end) in
  let query :=
    ((if truthy_str (t_service o) then [("service", or_empty (t_service o))] else [])
     ++ map (fun sc => ("scope", sc)) (t_scopes o)
     ++ (if truthy_str (t_username o) then [("account", or_empty (t_username o))] else []))%list in
  let h := if truthy_str (t_username o)
           then _setAuthHeaderFromAuthInfo []
                  {| ai_type := None; ai_username := t_username o;
                     ai_password := t_password o; ai_token := None |}
           else [] in
  let qs := form_encode query in
  let tokenUrl := if String.eqb qs "" then tokenUrl else tokenUrl ++ "?" ++ qs in
  match url_parse tokenUrl with
  | None => Throw TypeError
  | Some (origin, href) =>
      Ok (mk_djclient origin (ua_or_default (t_userAgent o)),
          drop (String.length origin) href, h)
  end.

(** The last part of [_getToken], on the token endpoint's response. *)
Definition token_of_response (r : response) : result string :=
  if status r =? 401 then
    let! b := dockerJson r in
    let! m := _getRegistryErrorMessage b in
    let! ms := JS.to_str m in
    Throw (Error ("Registry 401 - Auth failed: " ++ ms) None)
  else
    let! body := resp_json r in
    let! tok := JS.get_prop body "token" in
    match tok with
    | JStr t => Ok t
    | _ => Throw (Error "authorization server did not include a token in the response" None)
    end.

(** [_getToken(opts)] *)
Definition _getToken (o : TokenOpts) : M string :=
  let* req := lift (token_request o) in
  let '(c, path, h) := req in
  let* r := request c "GET" path h [200; 401] "manual" in
  lift (token_of_response r).

(** [_parseWWWAuthenticate(header)] *)
Definition _parseWWWAuthenticate (header : string) : result WWWAuth.challenge :=
  let! parsed := WWWAuth.Parse_WWW_Authenticate header in
  if truthy_str (WWWAuth.err parsed) then
    Throw (Error ("could not parse WWW-Authenticate header " ++ DQ ++ header
                  ++ DQ ++ ": " ++ or_empty (WWWAuth.err parsed)) None)
  else Ok parsed.

Definition missing_challenge_msg : string :=
  "missing WWW-Authenticate header in 401 response to " ++ DQ ++ "GET /v2/"
  ++ DQ ++ " (see https://docs.docker.com/registry/spec/api/#api-version-check)".

(** The module-level [login(opts)], without [pingRes] (the client methods
    modelled here never pass one).  [url] is the registry URL [ping]
    computes from the index, which is the client's [_url]. *)
Definition login (url : string) (username password : option string)
    (scope_opt : string) (ua : string) (insecure : bool) : M AuthInfo :=
  let scope := scope_opt in
  let* _ := record_login scope in
  let* res := ping url ua in
  if status res =? 200 then ret no_auth
  else if status res =? 401 then
    let chalHeader := hdr_get "www-authenticate" (resp_headers res) in
    if negb (truthy_str chalHeader) then throwM (Error missing_challenge_msg None) else
    let* authChallenge := lift (_parseWWWAuthenticate (or_empty chalHeader)) in
    let sch := to_lower (WWWAuth.scheme authChallenge) in
    if String.eqb sch "basic" then
      ret {| ai_type := Some "basic"; ai_username := username;
             ai_password := password; ai_token := None |}
    else if String.eqb sch "bearer" then
      let* token := _getToken
        {| t_realm := WWWAuth.obj_get "realm" (WWWAuth.parms authChallenge);
           t_service := WWWAuth.obj_get "service" (WWWAuth.parms authChallenge);
           t_scopes := if String.eqb scope "" then [] else [scope];
           t_username := username; t_password := password;
           t_insecure := insecure; t_userAgent := ua |} in
      ret {| ai_type := Some "bearer"; ai_username := None;
             ai_password := None; ai_token := Some token |}
    else throwM (Error ("unsupported auth scheme: " ++ DQ
                        ++ WWWAuth.scheme authChallenge ++ DQ) None)
  else throwM (Error ("HTTP " ++ JS.Z_to_string (status res)
                      ++ " from ping endpoint") None).

Definition opt_str_eqb (a b : option string) : bool :=
  match a, b with
  | Some x, Some y => String.eqb x y
  | None, None => true
  | _, _ => false
  end.

(** The scope [RegistryClientV2.login] uses: [opts.scope], or when that is
    absent or empty the repository scope. *)
Definition login_scope (c : client) (scope_opt : option string) : string :=
  if truthy_str scope_opt then or_empty scope_opt
  else _makeAuthScope "repository" (str_or_undef (remoteName c)) (c_scopes c).

(** The client after a successful login. *)
Definition logged_in (c : client) (scope : string) (ai : AuthInfo) : client :=
  {| c_insecure := c_insecure c; remoteName := remoteName c;
     localName := localName c;
     c_acceptManifestLists := c_acceptManifestLists c;
     c_maxSchemaVersion := c_maxSchemaVersion c;
     c_username := c_username c; c_password := c_password c;
     c_scopes := c_scopes c;
     _loggedIn := true; _loggedInScope := Some scope; _authInfo := Some ai;
     _headers := _setAuthHeaderFromAuthInfo (_headers c) ai;
     _url := _url c; userAgent := userAgent c |}.

(** [RegistryClientV2.login({scope})] *)
Definition client_login (scope_opt : option string) : M unit :=
  let* c := get_cl in
  let scope := login_scope c scope_opt in
  if (_loggedIn c && opt_str_eqb (_loggedInScope c) (Some scope))%bool then ret tt
  else
    let* ai := login (_url c) (c_username c) (c_password c) scope (userAgent c) false in
    let* c' := get_cl in
    put_cl (logged_in c' scope ai).

(** The options of [getManifest]. *)
Record GetManifestOpts := {
  g_ref : string;
  g_acceptManifestLists : option bool;
  g_maxSchemaVersion : option Z;
  g_followRedirects : option bool
}.

(** The headers of the manifest request: a copy of the client's headers,
    with an [accept] header built when [maxSchemaVersion === 2]. *)
Definition manifest_headers (h : headers) (acceptManifestLists : bool)
    (maxSchemaVersion : Z) : headers :=
  if maxSchemaVersion =? 2 then
    let accept := match hdr_get "accept" h with
                  | Some a => split_comma_space a
                  | None => []
                  end in
    let accept := (accept ++ [MEDIATYPE_MANIFEST_V2]
                   ++ (if acceptManifestLists then [MEDIATYPE_MANIFEST_LIST_V2] else []))%list in
    hdr_set "accept" (JS.join ", " accept) h
  else h.

Definition manifest_path (c : client) (ref : string) : string :=
  "/v2/" ++ encodeURI (or_empty (remoteName c)) ++ "/manifests/" ++ encodeURI ref.

(** The checks [getManifest] makes on the parsed manifest. *)
Definition check_manifest (c : client) (ref : string) (maxSchemaVersion : Z)
    (manifest : jsval) : result unit :=
  let where_ := str_or_undef (localName c) ++ ":" ++ ref in
  let! sv := JS.get_prop manifest "schemaVersion" in
  let! too_new := JS.gt_num sv maxSchemaVersion in
  if too_new then
    let! svs := JS.to_str sv in
    Throw (Error ("unsupported schema version " ++ svs ++ " in " ++ where_
                  ++ " manifest") None)
  else
  let! mediaType := JS.get_prop manifest "mediaType" in
  if JS.eq_str mediaType MEDIATYPE_MANIFEST_LIST_V2 then
    let! manifests := JS.get_prop manifest "manifests" in
    let! empty :=
      (if negb (JS.is_array manifests) then Ok true
       else let! len := JS.get_prop manifests "length" in Ok (JS.eq_num len 0)) in
    if empty then Throw (Error ("no manifests in " ++ where_ ++ " manifest list") None)
    else Ok tt
  else
    let! fsLayers := JS.get_prop manifest "fsLayers" in
    let! layers :=
      (if JS.eq_num sv 1 then
         let! l1 := JS.get_prop fsLayers "length" in
         let! history := JS.get_prop manifest "history" in
         let! l2 := JS.get_prop history "length" in
         if negb (JS.strict_eq l1 l2) then
           Throw (Error ("history length not equal to layers length in "
                         ++ where_ ++ " manifest") None)
         else Ok fsLayers
       else if JS.eq_num sv 2 then JS.get_prop manifest "layers"
       else Ok fsLayers) in
    let! none :=
      (if negb (JS.truthy layers) then Ok true
       else let! len := JS.get_prop layers "length" in Ok (JS.eq_num len 0)) in
    if none then Throw (Error ("no layers in " ++ where_ ++ " manifest") None)
    else Ok tt.

(** The [.catch] on the manifest request: a 401 becomes a not-found error. *)
Definition manifest_401_handler {A} (e : exn) : M A :=
  match e with
  | Error m (Some 401) =>
      let* errMsg := lift (_getRegistryErrorMessage (JS.error_obj m)) in
      let* msg := lift (JS.to_str errMsg) in
      throwM (Error ("Docker registry 401 Not Found: " ++ msg) None)
  | _ => throwM e
  end.

(** [RegistryClientV2.getManifest(opts)]: the response, and the manifest
    unless the response is a redirect. *)
Definition getManifest (opts : GetManifestOpts) : M (response * option jsval) :=
  let* c0 := get_cl in
  let acceptManifestLists :=
    match g_acceptManifestLists opts with Some b => b | None => c_acceptManifestLists c0 end in
  let maxSchemaVersion :=
    match g_maxSchemaVersion opts with Some v => v | None => c_maxSchemaVersion c0 end in
  let* _ := client_login None in
  let* c := get_cl in
  let h := manifest_headers (_headers c) acceptManifestLists maxSchemaVersion in
  let manual := match g_followRedirects opts with Some false => true | _ => false end in
  let* resp :=
    catchM (request (mk_djclient (_url c) (userAgent c)) "GET"
                    (manifest_path c (g_ref opts)) h
                    (if manual then [200; 301; 302; 307] else [200])
                    (if manual then "manual" else "follow"))
           manifest_401_handler in
  if ((300 <? status resp) && (status resp <? 400))%bool then ret (resp, None)
  else
    let* manifest := lift (dockerJson resp) in
    let* _ := lift (check_manifest c (g_ref opts) maxSchemaVersion manifest) in
    ret (resp, Some manifest).

(** The options of [_makeHttpRequest]. *)
Record HttpRequestOpts := {
  m_method : string;
  m_path : string;
  m_headers : option headers;
  m_followRedirects : option bool;
  m_maxRedirects : option Z
}.

(** The local [req] of the redirect loop. *)
Record hop := {
  h_client : djclient;
  h_path : string;
  h_headers : headers
}.

Definition max_redirects_error (maxRedirects : Z) : exn :=
  Error ("maximum number of redirects (" ++ JS.Z_to_string maxRedirects ++ ") hit") None.

(** The [while (numRedirs < maxRedirects)] loop; [fuel] bounds the
    iterations (it is [maxRedirects] at the start, and [numRedirs] is
    incremented on each iteration). *)
Fixpoint redirect_loop (fuel : nat) (ua method : string) (followRedirects : bool)
    (maxRedirects numRedirs : Z) (req : hop) (ress : list response)
    : M (list response) :=
  if numRedirs <? maxRedirects then
    match fuel with
    | O => throwM (max_redirects_error maxRedirects)
    | S fuel' =>
        let numRedirs := numRedirs + 1 in
        let client := {| dj_accept := ""; dj_url := dj_url (h_client req);
                         dj_userAgent := dj_userAgent (h_client req) |} in
        let* resp := request client method (h_path req) (h_headers req)
                             [200; 302; 307] "manual" in
        let ress := (ress ++ [resp])%list in
        if negb followRedirects then ret ress else
        if negb ((status resp =? 302) || (status resp =? 307))%bool then ret ress else
        let location := hdr_get "location" (resp_headers resp) in
        if negb (truthy_str location) then ret ress else
        match url_resolve (or_empty location) (h_path req) (dj_url (h_client req)) with
        | None => throwM TypeError
        | Some (origin, href) =>
            let req := {| h_client := mk_djclient origin ua;
                          h_path := drop (String.length origin) href;
                          h_headers := [] |} in
            let* _ := lift (dockerBody resp) in
            redirect_loop fuel' ua method followRedirects maxRedirects numRedirs req ress
        end
    end
  else throwM (max_redirects_error maxRedirects).

(** [RegistryClientV2._makeHttpRequest(opts)] *)
Definition _makeHttpRequest (opts : HttpRequestOpts) : M (list response) :=
  let* c := get_cl in
  let followRedirects := match m_followRedirects opts with Some b => b | None => true end in
  let maxRedirects := match m_maxRedirects opts with Some n => n | None => 3 end in
  redirect_loop (Z.to_nat maxRedirects) (userAgent c) (m_method opts) followRedirects
    maxRedirects 0
    {| h_client := mk_djclient (_url c) (userAgent c); h_path := m_path opts;
       h_headers := match m_headers opts with Some h => h | None => [] end |} [].

(** [RegistryClientV2._headOrGetBlob({method, digest})] *)
Definition _headOrGetBlob (method digest : string) : M (list response) :=
  let* _ := client_login None in
  let* c := get_cl in
  _makeHttpRequest
    {| m_method := method;
       m_path := "/v2/" ++ encodeURI (or_empty (remoteName c)) ++ "/blobs/"
                 ++ encodeURI digest;
       m_headers := Some (_headers c);
       m_followRedirects := None; m_maxRedirects := None |}.

(** The options of the [RegistryClientV2] constructor the model uses;
    [o_url] is the [_url] the constructor derives from the index
    ([urlFromIndex] of common.ts, or the default v2 registry).
    [o_acceptOCIManifests] is the [acceptOCIManifests] option of
    [RegistryClientOpts] (types.ts), which the getManifest example passes;
    the constructor never reads it. *)
Record ClientOpts := {
  o_insecure : option bool;
  o_remoteName : option string;
  o_localName : option string;
  o_url : string;
  o_acceptOCIManifests : option bool;
  o_acceptManifestLists : option bool;
  o_maxSchemaVersion : option Z;
  o_username : option string;
  o_password : option string;
  o_token : option string;
  o_scopes : option (list string);
  o_userAgent : option string
}.

(** The options [o] with [acceptOCIManifests] set to [b]. *)
Definition with_acceptOCIManifests (b : option bool) (o : ClientOpts) : ClientOpts :=
  {| o_insecure := o_insecure o; o_remoteName := o_remoteName o;
     o_localName := o_localName o; o_url := o_url o;
     o_acceptOCIManifests := b;
     o_acceptManifestLists := o_acceptManifestLists o;
     o_maxSchemaVersion := o_maxSchemaVersion o;
     o_username := o_username o; o_password := o_password o;
     o_token := o_token o; o_scopes := o_scopes o; o_userAgent := o_userAgent o |}.

(** [new RegistryClientV2(opts)] *)
Definition RegistryClientV2 (o : ClientOpts) : client :=
  {| c_insecure := match o_insecure o with Some b => b | None => false end;
     remoteName := o_remoteName o; localName := o_localName o;
     c_acceptManifestLists :=
       match o_acceptManifestLists o with Some b => b | None => false end;
     c_maxSchemaVersion :=
       match o_maxSchemaVersion o with
       | Some v => if v =? 0 then 1 else v
       | None => 1
       end;
     c_username := o_username o; c_password := o_password o;
     c_scopes := match o_scopes o with Some l => l | None => ["pull"] end;
     _loggedIn := false; _loggedInScope := None; _authInfo := None;
     _headers := _setAuthHeaderFromAuthInfo []
                   {| ai_type := None; ai_username := o_username o;
                      ai_password := o_password o; ai_token := o_token o |};
     _url := o_url o;
     userAgent := ua_or_default (or_empty (o_userAgent o)) |}.

(** [RegistryClientV2.ping()]: the module [ping] on the client's index,
    whose URL is the client's [_url], with the client's user agent. *)
Definition client_ping : M response :=
  let* c := get_cl in
  ping (_url c) (userAgent c).

(** [RegistryClientV2.supportsV2()] *)
Definition supportsV2 : M bool :=
  let* res := catchM (let* r := client_ping in ret (Some r))
                     (fun e => match e with
                               | Error _ (Some _) => ret None
                               | _ => throwM e
                               end) in
  match res with
  | None => ret false
  | Some r =>
      let header := hdr_get "docker-distribution-api-version" (resp_headers r) in
      if (truthy_str header
          && existsb (String.eqb "registry/2.0") (split_ws_comma (or_empty header)))%bool
      then ret true
      else ret (existsb (Z.eqb (status r)) [200; 401])
  end.

(** [RegistryClientV2.listTags()]: [this.repo.remoteName!] is
    [undefined] when the repository has no remote name. *)
Definition listTags : M jsval :=
  let* _ := client_login None in
  let* c := get_cl in
  let* res := request (mk_djclient (_url c) (userAgent c)) "GET"
                ("/v2/" ++ encodeURI (str_or_undef (remoteName c)) ++ "/tags/list")
                (_headers c) [200] "manual" in
  lift (dockerJson res).

(** [RegistryClientV2.deleteManifest({ref})] *)
Definition deleteManifest (ref : string) : M unit :=
  let* _ := client_login None in
  let* c := get_cl in
  let* resp := request (mk_djclient (_url c) (userAgent c)) "DELETE"
                 (manifest_path c ref) (_headers c) [200; 202] "manual" in
  let* _ := lift (dockerJson resp) in
  ret tt.

(** [RegistryClientV2.headBlob({digest})]: [resp.slice(-1)[0]] is
    [undefined] on an empty list, and reading its body then throws; reading
    the body of a response does not fail. *)
Definition headBlob (digest : string) : M (list response) :=
  let* ress := _headOrGetBlob "HEAD" digest in
  match rev ress with
  | [] => throwM TypeError
  | _ :: _ => ret ress
  end.

End Registry.

(* ------------------------------------------------------------------ *)
(** ** Concrete platforms and servers, for the instances below *)

Module Demo.

(** [new URL(s)] for absolute URLs [scheme://host/path]. *)
Definition url_parse (s : string) : option (string * string) :=
  match realm_scheme s with
  | Some sch =>
      let rest := drop (String.length sch + 3) s in
      let host := take_while (fun c => negb (Nat.eqb (nat_of_ascii c) 47)) rest in
      let path := drop (String.length host) rest in
      let origin := sch ++ "://" ++ host in
      Some (origin, origin ++ (if String.eqb path "" then "/" else path))
  | None => None
  end.

(** [new URL(location, base)] for absolute locations and absolute paths. *)
Definition url_resolve (location path base : string) : option (string * string) :=
  match url_parse location with
  | Some r => Some r
  | None => match url_parse base with
            | Some (origin, _) => Some (origin, origin ++ location)
            | None => None
            end
  end.

Definition form_encode (q : list (string * string)) : string :=
  JS.join "&" (map (fun kv => fst kv ++ "=" ++ snd kv) q).

Definition platform (f : http_request -> response) : Platform :=
  {| p_fetch := f; p_url_parse := url_parse; p_url_resolve := url_resolve;
     p_form_encode := form_encode; p_btoa := fun s => s;
     p_encodeURI := fun s => s; p_DEFAULT_USERAGENT := "docker-registry-client" |}.

Definition resp (st : Z) (h : headers) (text : string) (json : option jsval) : response :=
  {| status := st; resp_headers := h; body_text := text; body_error := None;
     body_json := json |}.

(** A client for [registry.example/library/alpine], as the constructor
    builds it with no other option. *)
Definition client0 : client :=
  RegistryClientV2 (platform (fun _ => resp 404 [] "" None))
    {| o_insecure := None; o_remoteName := Some "library/alpine";
       o_localName := Some "registry.example/library/alpine";
       o_url := "https://registry.example";
       o_acceptOCIManifests := None;
       o_acceptManifestLists := None; o_maxSchemaVersion := None;
       o_username := None; o_password := None; o_token := None;
       o_scopes := None; o_userAgent := None |}.

Definition st0 : St := {| cl := client0; sent := []; logins := [] |}.

(** A registry needing no authentication, answering [manifest_resp] on
    every path but [/v2/]. *)
Definition open_registry (manifest_resp : response) (rq : http_request) : response :=
  if String.eqb (rq_path rq) "/v2/" then resp 200 [] "{}" (Some (JObj []))
  else manifest_resp.

(** A client logged in with the bearer token [tok]. *)
Definition bearer_tok : AuthInfo :=
  {| ai_type := Some "bearer"; ai_username := None; ai_password := None;
     ai_token := Some "tok" |}.

Definition st_auth : St :=
  {| cl := logged_in (platform (fun _ => resp 404 [] "" None)) client0
              "repository:library/alpine:pull" bearer_tok;
     sent := []; logins := [] |}.

(** A server answering 302 on the paths of [table], with the location the
    table gives, and 200 on every other path. *)
Definition redirects (table : list (string * string)) (rq : http_request) : response :=
  match hdr_get (rq_path rq) table with
  | Some loc => resp 302 [("location", loc)] "" None
  | None => resp 200 [] "blob" None
  end.

(** The request [_headOrGetBlob] makes once logged in, with the default
    redirect options. *)
Definition blob_opts (c : client) (path : string) : HttpRequestOpts :=
  {| m_method := "GET"; m_path := path; m_headers := Some (_headers c);
     m_followRedirects := None; m_maxRedirects := None |}.

(** Two redirects, the first to another origin. *)
Definition chain2 : list (string * string) :=
  [("/a", "https://cdn.example/b"); ("/b", "/c")].

(** Three redirects. *)
Definition chain3 : list (string * string) :=
  [("/a", "https://cdn.example/b"); ("/b", "/c"); ("/c", "/d")].

(** [getManifest({ref: 'latest'})] with every other option absent. *)
Definition latest : GetManifestOpts :=
  {| g_ref := "latest"; g_acceptManifestLists := None;
     g_maxSchemaVersion := None; g_followRedirects := None |}.


(** A 200 response carrying the JSON document [m]. *)
Definition json_resp (m : jsval) : response := resp 200 [] "{}" (Some m).

(** A 401 response with the registry's usual error body. *)
Definition unauthorized_resp : response :=
  resp 401 [] "{}"
    (Some (JObj [("errors", JArr [JObj [("code", JStr "UNAUTHORIZED");
                                        ("message", JStr "authentication required")]])])).

(** The options [login] passes to [_getToken] for a Bearer challenge
    with a realm and a service, without credentials. *)
Definition token_opts : TokenOpts :=
  {| t_realm := Some "https://auth.example/token"; t_service := Some "registry.example";
     t_scopes := ["repository:library/alpine:pull"]; t_username := None;
     t_password := None; t_insecure := false; t_userAgent := "" |}.

(** A 401 response whose body cannot be read. *)
Definition unreadable_401 : response :=
  {| status := 401; resp_headers := []; body_text := "{}";
     body_error := Some "Content-Length mismatch"; body_json := None |}.

(** A schema-version-1 manifest with one layer. *)
Definition v1_manifest : jsval :=
  JObj [("schemaVersion", JNum 1);
        ("fsLayers", JArr [JObj [("blobSum", JStr "sha256:a")]]);
        ("history", JArr [JObj [("v1Compatibility", JStr "{}")]])].




(** A registry asking for Basic authentication on [/v2/]. *)
Definition basic_registry (rq : http_request) : response :=
  if String.eqb (rq_path rq) "/v2/"
  then resp 401 [("www-authenticate", "Basic realm=" ++ DQ ++ "reg" ++ DQ)] "" None
  else resp 200 [] "{}" (Some (JObj [])).

(** A client for [registry.example/library/alpine] with a username and a
    password. *)
Definition client_user : client :=
  RegistryClientV2 (platform basic_registry)
    {| o_insecure := None; o_remoteName := Some "library/alpine";
       o_localName := Some "registry.example/library/alpine";
       o_url := "https://registry.example";
       o_acceptOCIManifests := None;
       o_acceptManifestLists := None; o_maxSchemaVersion := None;
       o_username := Some "alice"; o_password := Some "pw"; o_token := None;
       o_scopes := None; o_userAgent := None |}.

Definition st_user : St := {| cl := client_user; sent := []; logins := [] |}.

(** The getManifest example's client with [acceptOCIManifests: true],
    manifest lists accepted and [maxSchemaVersion: 2]. *)
Definition opts_oci : ClientOpts :=
  {| o_insecure := None; o_remoteName := Some "library/alpine";
     o_localName := Some "registry.example/library/alpine";
     o_url := "https://registry.example";
     o_acceptOCIManifests := Some true;
     o_acceptManifestLists := Some true; o_maxSchemaVersion := Some 2;
     o_username := None; o_password := None; o_token := None;
     o_scopes := None; o_userAgent := None |}.

Definition noauth_platform : Platform := platform (fun _ => resp 404 [] "" None).

Definition st_oci : St :=
  {| cl := RegistryClientV2 noauth_platform opts_oci;
     sent := []; logins := [] |}.

End Demo.

(** A registry answering [GET /v2/] with a 401 and the challenge
    [chal], and 404 on every other path. *)
Definition challenge_only (chal : string) (rq : http_request) : response :=
  if String.eqb (rq_path rq) "/v2/"
  then Demo.resp 401 [("www-authenticate", chal)] "" None
  else Demo.resp 404 [] "" None.

(* ------------------------------------------------------------------ *)
(** ** Properties the statements below use *)

(** A string without whitespace, such as a bare scheme name. *)
Fixpoint no_space (s : string) : bool :=
  match s with
  | EmptyString => true
  | String c t => negb (is_space c) && no_space t
  end.

(** A string with none of the three separators of the challenge parser. *)
Fixpoint no_sep (s : string) : bool :=
  match s with
  | EmptyString => true
  | String c t => negb (WWWAuth.is_sep c) && no_sep t
  end.




(** A string whose characters all satisfy [p]. *)
Fixpoint all_chars (p : ascii -> bool) (s : string) : bool :=
  match s with
  | EmptyString => true
  | String c t => p c && all_chars p t
  end.

(** A parameter name as a challenge writes it: non-empty, without white
    space and without the separators. *)
Definition key_ok (k : string) : bool :=
  negb (String.eqb k "") && no_sep k && no_space k.

(** A value that can be written as a bare token: non-empty, without
    separators and without surrounding white space. *)
Definition token_ok (v : string) : bool :=
  negb (String.eqb v "") && no_sep v && String.eqb (trim v) v.

(** The text of a quoted value, with its double quotes doubled. *)
Fixpoint quote_body (v : string) : string :=
  match v with
  | EmptyString => EmptyString
  | String c t =>
      if code c =? 34 then String c (String c (quote_body t))
      else String c (quote_body t)
  end.

(** A parameter [k=v], the value bare when it can be, quoted otherwise. *)
Definition render_param (kv : string * string) : string :=
  let (k, v) := kv in
  if token_ok v then k ++ "=" ++ v else k ++ "=" ++ DQ ++ quote_body v ++ DQ.

(** A parameter list, the parameters separated by commas. *)
Definition render_params (l : list (string * string)) : string :=
  JS.join "," (map render_param l).




(** The object a parameter list gives when each assignment is made in
    turn. *)
Definition assign_all (l : list (string * string)) (o : WWWAuth.obj) : WWWAuth.obj :=
  fold_left (fun o kv => WWWAuth.obj_set (fst kv) (snd kv) o) l o.

(** The value of the last pair of [l] with key [k]. *)
Definition last_value (k : string) (l : list (string * string)) : option string :=
  fold_left (fun acc kv => if String.eqb k (fst kv) then Some (snd kv) else acc) l None.

(** The request [ping] sends to the registry at [url]. *)
Definition ping_rq (url ua : string) : http_request :=
  {| rq_method := "GET"; rq_url := url; rq_path := "/v2/";
     rq_headers := request_headers (mk_djclient url ua) []; rq_redirect := "manual" |}.

(* ================================================================== *)
(** * Proofs *)

Module ParserFacts.
Import WWWAuth.

Lemma split_seps_nonempty : forall s, split_seps s <> [].
Proof.
  destruct s as [|c t]; simpl; [discriminate|].
  destruct (is_sep c); [discriminate|].
  destruct (split_seps t); discriminate.
Qed.

Lemma split_seps_app_sep : forall p c t, is_sep c = true ->
  split_seps (p ++ String c t) = (split_seps p ++ String c "" :: split_seps t)%list.
Proof.
  induction p as [|d p IH]; intros c t Hc; simpl.
  - rewrite Hc. reflexivity.
  - rewrite (IH c t Hc).
    destruct (is_sep d); [reflexivity|].
    destruct (split_seps p) eqn:E; [now destruct (split_seps_nonempty p)|].
    reflexivity.
Qed.

Lemma split_seps_no_sep : forall n, no_sep n = true -> split_seps n = [n].
Proof.
  induction n as [|c t IH]; simpl; intros H; [reflexivity|].
  apply andb_prop in H as [Hc Ht].
  apply negb_true_iff in Hc. rewrite Hc, (IH Ht). reflexivity.
Qed.


(** A name without separators is none of the one-character separator
    tokens. *)
Lemma no_sep_tokens : forall n, n <> "" -> no_sep n = true ->
  String.eqb n "" = false /\ String.eqb "=" n = false /\
  String.eqb DQ n = false /\ String.eqb "," n = false.
Proof.
  intros n Hne Hn.
  destruct n as [|c t]; [congruence|].
  simpl in Hn. apply andb_prop in Hn as [Hc _].
  repeat split; apply String.eqb_neq; intros E;
    try discriminate; unfold DQ, chr in E; injection E as E1 E2;
    subst c; discriminate.
Qed.


















End ParserFacts.

Module ChallengeRegexFacts.
Import WWWAuth.

Lemma drop_while_no_space : forall f s, no_space s = true ->
  no_space (drop_while f s) = true.
Proof.
  intros f s. induction s as [|c t IH]; simpl; auto.
  intros H. apply andb_prop in H as [Hc Ht].
  destruct (f c); simpl; auto. rewrite Hc, Ht. reflexivity.
Qed.

Lemma match_at_no_space : forall s, no_space s = true -> match_at s = None.
Proof.
  intros s H. unfold match_at.
  pose proof (drop_while_no_space is_word s H) as H'.
  destruct (take_while is_word s); [reflexivity|].
  destruct (drop_while is_word s) as [|c t]; [reflexivity|].
  simpl in H'. apply andb_prop in H' as [Hc _].
  apply negb_true_iff in Hc. rewrite Hc. reflexivity.
Qed.

(** The regex does not match a string without whitespace. *)
Lemma ParseAuth_no_space : forall s, no_space s = true -> ParseAuth_match s = None.
Proof.
  induction s as [|c t IH]; intros H.
  - reflexivity.
  - simpl. rewrite (match_at_no_space _ H).
    simpl in H. apply andb_prop in H as [_ Ht]. exact (IH Ht).
Qed.

End ChallengeRegexFacts.

Module RedirectFacts.

Section Hops.
Variable P : Platform.

Definition ua_only (ua : string) (rq : http_request) : Prop :=
  rq_headers rq = [("user-agent", ua)].

Lemma request_sends_one : forall c m p h ex rd st st' r,
  request P c m p h ex rd st = (st', r) ->
  sent st' = (sent st ++ [{| rq_method := m; rq_url := dj_url c; rq_path := p;
                             rq_headers := request_headers c h; rq_redirect := rd |}])%list
  /\ cl st' = cl st.
Proof.
  intros c m p h ex rd st st' r. unfold request.
  destruct (existsb _ _); intros E; injection E as <- _; auto.
Qed.

(** The requests of the redirect loop: all but the first carry the
    [user-agent] header alone, and so does the first when the loop starts
    from a hop with no headers. *)
Lemma redirect_loop_sent : forall fuel ua method f maxR n req ress st st' r,
  redirect_loop P fuel ua method f maxR n req ress st = (st', r) ->
  exists new, sent st' = (sent st ++ new)%list /\ cl st' = cl st /\
    Forall (ua_only ua) (tl new) /\
    (h_headers req = [] -> dj_userAgent (h_client req) = ua -> Forall (ua_only ua) new).
Proof.
  induction fuel as [|fuel IH]; intros ua method f maxR n req ress st st' r; cbn [redirect_loop].
  - destruct (n <? maxR); intros E; injection E as <- _;
      exists []; rewrite app_nil_r; repeat split; auto.
  - destruct (n <? maxR); cycle 1.
    { intros E; injection E as <- _; exists []; rewrite app_nil_r; repeat split; auto. }
    unfold bindM at 1.
    destruct (request P _ _ _ _ _ _ st) as [s1 r1] eqn:Er.
    apply request_sends_one in Er as [Hs1 Hc1].
    set (rq1 := {| rq_method := _; rq_url := _; rq_path := _; rq_headers := _;
                   rq_redirect := _ |}) in Hs1.
    assert (forall new, sent st' = (sent s1 ++ new)%list -> cl st' = cl s1 ->
              Forall (ua_only ua) new ->
              exists new0, sent st' = (sent st ++ new0)%list /\ cl st' = cl st /\
                Forall (ua_only ua) (tl new0) /\
                (h_headers req = [] -> dj_userAgent (h_client req) = ua ->
                 Forall (ua_only ua) new0)) as Hnext.
    { intros new Hn Hc Hf. exists (rq1 :: new).
      rewrite Hn, Hs1, <- app_assoc.
      split; [reflexivity|]. split; [congruence|]. split; [exact Hf|].
      intros Hh Hu. constructor; [|exact Hf].
      unfold ua_only, rq1. simpl. rewrite Hh, Hu. reflexivity. }
    assert (st' = s1 -> exists new0, sent st' = (sent st ++ new0)%list /\ cl st' = cl st /\
                Forall (ua_only ua) (tl new0) /\
                (h_headers req = [] -> dj_userAgent (h_client req) = ua ->
                 Forall (ua_only ua) new0)) as Hstop.
    { intros ->. apply Hnext with []; auto using app_nil_r. }
    destruct r1 as [resp|e]; [|intros E; injection E as <- _; auto].
    repeat match goal with
           | |- context [if ?b then _ else _] => destruct b
           end;
      try (intros E; injection E as <- _; now auto).
    destruct (p_url_resolve P _ _ _) as [[origin href]|];
      [|intros E; injection E as <- _; now auto].
    unfold bindM at 1, lift.
    destruct (dockerBody resp); [|intros E; injection E as <- _; now auto].
    intros E. apply IH in E as (new & Hn & Hc & _ & Hf).
    apply Hnext with new; auto.
Qed.

End Hops.

End RedirectFacts.


Module RedirectClaims.
Import RedirectFacts.

(** Claim C4: whatever the client state (its headers may hold an
    [authorization] header) and whatever the redirect chain, every request
    [_makeHttpRequest] sends after the first goes out with the
    [user-agent] header alone, so without [authorization]. *)
Theorem redirect_hops_carry_only_user_agent : forall P opts st st' r,
  _makeHttpRequest P opts st = (st', r) ->
  exists new, sent st' = (sent st ++ new)%list /\
    Forall (fun rq => rq_headers rq = [("user-agent", userAgent (cl st))] /\
                      hdr_has "authorization" (rq_headers rq) = false) (tl new).
Proof.
  intros P opts st st' r E. unfold _makeHttpRequest, bindM, get_cl in E.
  apply redirect_loop_sent in E as (new & Hn & _ & Hf & _).
  exists new. split; [exact Hn|].
  eapply Forall_impl; [|exact Hf].
  intros rq Hrq. unfold ua_only in Hrq. rewrite Hrq. split; reflexivity.
Qed.

(** The theorem for a logged-in client whose blob request is redirected
    twice, first to another origin. *)
Lemma redirect_hops_carry_only_user_agent_witness :
  let x := _makeHttpRequest (Demo.platform (Demo.redirects Demo.chain2))
             (Demo.blob_opts (cl Demo.st_auth) "/a") Demo.st_auth in
  exists new, sent (fst x) = (sent Demo.st_auth ++ new)%list /\
    Forall (fun rq => rq_headers rq = [("user-agent", userAgent (cl Demo.st_auth))] /\
                      hdr_has "authorization" (rq_headers rq) = false) (tl new).
Proof.
  intros x.
  apply (redirect_hops_carry_only_user_agent
           (Demo.platform (Demo.redirects Demo.chain2))
           (Demo.blob_opts (cl Demo.st_auth) "/a") Demo.st_auth (fst x) (snd x)).
  vm_compute. reflexivity.
Defined.

(** Claim C5: with the default [maxRedirects] of 3, a chain of two
    redirects is followed (three responses), but a chain of three
    redirects ends in the error [maximum number of redirects (3) hit]
    after three requests: [numRedirs] counts the first request too. *)
Theorem three_redirects_rejected :
  let two := _makeHttpRequest (Demo.platform (Demo.redirects Demo.chain2))
               (Demo.blob_opts (cl Demo.st_auth) "/a") Demo.st_auth in
  let three := _makeHttpRequest (Demo.platform (Demo.redirects Demo.chain3))
                 (Demo.blob_opts (cl Demo.st_auth) "/a") Demo.st_auth in
  map status (match snd two with Ok l => l | Throw _ => [] end) = [302; 302; 200] /\
  snd three = Throw (Error "maximum number of redirects (3) hit" None) /\
  map rq_path (sent (fst three)) = ["/a"; "/b"; "/c"].
Proof. vm_compute. repeat split. Qed.

End RedirectClaims.

Module LoginFacts.

Section Frame.
Variable P : Platform.

(** A computation that leaves the client object and the record of login
    sequences as they are. *)
Definition frame {A} (m : M A) : Prop :=
  forall st st' r, m st = (st', r) -> cl st' = cl st /\ logins st' = logins st.

Lemma frame_ret : forall A (a : A), frame (ret a).
Proof. intros A a st st' r E. injection E as <- _. auto. Qed.

Lemma frame_lift : forall A (x : result A), frame (lift x).
Proof. intros A x st st' r E. injection E as <- _. auto. Qed.

Lemma frame_throw : forall A e, frame (throwM (A:=A) e).
Proof. intros. apply frame_lift. Qed.

Lemma frame_get_cl : frame get_cl.
Proof. intros st st' r E. injection E as <- _. auto. Qed.

Lemma frame_bind : forall A B (m : M A) (f : A -> M B),
  frame m -> (forall a, frame (f a)) -> frame (bindM m f).
Proof.
  intros A B m f Hm Hf st st' r E. unfold bindM in E.
  destruct (m st) as [s1 [a|e]] eqn:E1; apply Hm in E1 as [H1 H2].
  - apply Hf in E as [H3 H4]. split; congruence.
  - injection E as <- _. auto.
Qed.

Lemma frame_request : forall c m p h ex rd, frame (request P c m p h ex rd).
Proof.
  intros c m p h ex rd st st' r E. unfold request in E.
  destruct (existsb _ _); injection E as <- _; auto.
Qed.

Create HintDb frame_db.
#[local] Hint Resolve frame_ret frame_lift frame_throw frame_get_cl frame_request : frame_db.

Ltac frame_tac :=
  repeat first
    [ apply frame_bind; [|intros ?]
    | progress (auto with frame_db)
    | match goal with
      | |- frame (if ?b then _ else _) => destruct b
      | |- frame (match ?x with _ => _ end) => destruct x
      end ].

Lemma frame_ping : forall url ua, frame (ping P url ua).
Proof. intros. unfold ping. frame_tac. Qed.

Lemma frame_getToken : forall o, frame (_getToken P o).
Proof. intros. unfold _getToken. frame_tac. Qed.

#[local] Hint Resolve frame_ping frame_getToken : frame_db.

Lemma record_login_effect : forall A scope (f : unit -> M A) st st' r,
  (forall a, frame (f a)) -> bindM (record_login scope) f st = (st', r) ->
  cl st' = cl st /\ logins st' = (logins st ++ [scope])%list.
Proof.
  intros A scope f st st' r Hf E. unfold bindM in E. cbn [record_login] in E.
  apply Hf in E as [H1 H2]. rewrite H1, H2. auto.
Qed.

(** The module-level [login] only adds its scope to the login record. *)
Lemma login_effect : forall url u p scope ua ins st st' r,
  login P url u p scope ua ins st = (st', r) ->
  cl st' = cl st /\ logins st' = (logins st ++ [scope])%list.
Proof.
  intros url u p scope ua ins st st' r E. unfold login in E.
  apply record_login_effect in E; [exact E|].
  intros _. frame_tac.
Qed.

End Frame.

End LoginFacts.

Module LoginClaims.
Import LoginFacts.

Lemma login_scope_logged_in : forall P c scope ai so,
  login_scope (logged_in P c scope ai) so = login_scope c so.
Proof. reflexivity. Qed.

(** Claim C6: [RegistryClientV2.login] compares the cached scope with the
    scope it would log in with, [opts.scope] or, when that is absent or
    empty, the repository scope.  On a match it returns with the state
    untouched; otherwise it runs the login sequence once for that scope;
    and right after a successful call, the same call is a match. *)
Theorem login_cache : forall P so st,
  let c := cl st in
  let scope := login_scope c so in
  ((_loggedIn c && opt_str_eqb (_loggedInScope c) (Some scope))%bool = true ->
     client_login P so st = (st, Ok tt)) /\
  ((_loggedIn c && opt_str_eqb (_loggedInScope c) (Some scope))%bool = false ->
     logins (fst (client_login P so st)) = (logins st ++ [scope])%list) /\
  (forall st1, client_login P so st = (st1, Ok tt) -> client_login P so st1 = (st1, Ok tt)).
Proof.
  intros P so st c scope. subst c scope.
  unfold client_login. cbv beta iota zeta delta [bindM get_cl].
  split; [|split].
  - intros H. rewrite H. reflexivity.
  - intros H. rewrite H.
    destruct (login P _ _ _ _ _ _ st) as [s1 [ai|e]] eqn:El;
      apply login_effect in El as [_ Hl]; exact Hl.
  - destruct (_loggedIn (cl st) && _)%bool eqn:H.
    + intros st1 E. injection E as <-. rewrite H. reflexivity.
    + destruct (login P _ _ _ _ _ _ st) as [s1 [ai|e]] eqn:El; [|discriminate].
      apply login_effect in El as [Hc _].
      intros st1 E. injection E as <-. cbn [cl put_cl].
      rewrite login_scope_logged_in, Hc. cbn.
      rewrite String.eqb_refl. reflexivity.
Qed.

(** The theorem on a fresh client against a registry needing no
    authentication: two calls, one login sequence. *)
Lemma login_cache_witness :
  let P := Demo.platform (Demo.open_registry (Demo.resp 404 [] "" None)) in
  let st1 := fst (client_login P None Demo.st0) in
  client_login P None st1 = (st1, Ok tt) /\
  logins st1 = ["repository:library/alpine:pull"].
Proof.
  intros P st1. split.
  - subst st1. apply (proj2 (proj2 (login_cache P None Demo.st0))). vm_compute. reflexivity.
  - subst st1. rewrite (proj1 (proj2 (login_cache P None Demo.st0)));
      vm_compute; reflexivity.
Defined.

(** A client logged in with the repository scope treats the scope string
    [""] as that scope: no login sequence runs. *)
Lemma empty_scope_cache_hit :
  _loggedInScope (cl Demo.st_auth) = Some "repository:library/alpine:pull" /\
  client_login (Demo.platform (Demo.open_registry (Demo.resp 404 [] "" None)))
    (Some "") Demo.st_auth = (Demo.st_auth, Ok tt).
Proof. vm_compute. split; reflexivity. Qed.

End LoginClaims.

Module ManifestFacts.

(** The [.catch] handler of the manifest request always throws, and
    leaves the state as it is. *)
Lemma handler_throws : forall A e s,
  exists e', manifest_401_handler (A:=A) e s = (s, Throw e').
Proof.
  intros A e s. unfold manifest_401_handler.
  destruct e as [m [[|p|p]|]| |]; try (eexists; reflexivity).
  repeat (destruct p; try (eexists; reflexivity)).
  unfold bindM, lift, throwM.
  destruct (_getRegistryErrorMessage _) as [v|e]; [|eexists; reflexivity].
  destruct (JS.to_str v); eexists; reflexivity.
Qed.

(** [getManifest] once its login has succeeded: one request for the
    manifest; on an expected status, the checks on the response; on
    another, the exception of the [.catch] handler. *)
Lemma getManifest_step : forall P opts st s1,
  client_login P None st = (s1, Ok tt) ->
  let c := cl s1 in
  let aml := match g_acceptManifestLists opts with
             | Some b => b | None => c_acceptManifestLists (cl st) end in
  let msv := match g_maxSchemaVersion opts with
             | Some v => v | None => c_maxSchemaVersion (cl st) end in
  let manual := match g_followRedirects opts with Some false => true | _ => false end in
  let path := manifest_path P c (g_ref opts) in
  let rq := {| rq_method := "GET"; rq_url := _url c; rq_path := path;
               rq_headers := request_headers (mk_djclient (_url c) (userAgent c))
                               (manifest_headers (_headers c) aml msv);
               rq_redirect := if manual then "manual" else "follow" |} in
  let r := p_fetch P rq in
  let s2 := {| cl := c; sent := (sent s1 ++ [rq])%list; logins := logins s1 |} in
  if existsb (Z.eqb (status r)) (if manual then [200; 301; 302; 307] else [200]) then
    getManifest P opts st =
      if ((300 <? status r) && (status r <? 400))%bool then (s2, Ok (r, None))
      else (s2, match dockerJson r with
                | Ok m => match check_manifest c (g_ref opts) msv m with
                          | Ok _ => Ok (r, Some m)
                          | Throw e => Throw e
                          end
                | Throw e => Throw e
                end)
  else exists e, getManifest P opts st = (s2, Throw e) /\
         manifest_401_handler (A := response) (unexpected_status_error r path) s2
           = (s2, Throw e).
Proof.
  intros P opts st s1 Hl c aml msv manual path rq r s2.
  unfold getManifest. cbv beta iota zeta delta [bindM get_cl].
  rewrite Hl. unfold catchM, request.
  fold c aml msv manual path.
  unfold s2, r, rq. cbn [dj_url mk_djclient].
  destruct (existsb _ _).
  2:{ match goal with
      | |- exists _, _ = (?s, _) /\ manifest_401_handler ?x _ = _ =>
          destruct (handler_throws response x s) as [e' He]
      end.
      exists e'. split; [|exact He].
      rewrite He. reflexivity. }
  destruct (_ && _)%bool; [reflexivity|].
  unfold lift. destruct (dockerJson _) as [m|e]; [|reflexivity].
  destruct (check_manifest c (g_ref opts) msv m); reflexivity.
Qed.


(** A manifest with a non-null [schemaVersion] reads it. *)
Lemma get_prop_defined : forall m k v, JS.prop m k = v -> JS.nullish v = false ->
  JS.get_prop m k = Ok v.
Proof.
  intros m k v Hp Hv. unfold JS.get_prop.
  destruct m; try (subst v; discriminate); rewrite <- Hp; reflexivity.
Qed.

End ManifestFacts.

Module ManifestClaims.
Import ManifestFacts.

Lemma get_prop_ok : forall m k, JS.nullish m = false -> JS.get_prop m k = Ok (JS.prop m k).
Proof. intros m k H. unfold JS.get_prop. rewrite H. reflexivity. Qed.













(** [Headers.get] after [Headers.set] and on a concatenation. *)
Lemma hdr_get_app : forall k (l1 l2 : headers),
  hdr_get k (l1 ++ l2)%list = match hdr_get k l1 with Some v => Some v | None => hdr_get k l2 end.
Proof.
  intros k l1 l2. induction l1 as [|[k' v'] l1 IH]; [reflexivity|].
  cbn. destruct (String.eqb k k'); [reflexivity|exact IH].
Qed.

Lemma hdr_get_delete : forall k k' h,
  hdr_get k (hdr_delete k' h) = if String.eqb k k' then None else hdr_get k h.
Proof.
  intros k k' h. unfold hdr_delete. induction h as [|[k0 v0] h IH].
  - cbn. destruct (String.eqb k k'); reflexivity.
  - cbn [filter fst]. destruct (String.eqb k' k0) eqn:E; cbn [negb].
    + apply String.eqb_eq in E. subst k0. rewrite IH. cbn.
      destruct (String.eqb k k'); reflexivity.
    + cbn. rewrite IH. destruct (String.eqb k k') eqn:E'; [|reflexivity].
      apply String.eqb_eq in E'. subst k. rewrite E. reflexivity.
Qed.

Lemma hdr_get_set_same : forall k v h, hdr_get k (hdr_set k v h) = Some v.
Proof.
  intros k v h. unfold hdr_set. rewrite hdr_get_app, hdr_get_delete, String.eqb_refl.
  cbn. rewrite String.eqb_refl. reflexivity.
Qed.

Lemma hdr_get_set_other : forall k k' v h, k <> k' ->
  hdr_get k (hdr_set k' v h) = hdr_get k h.
Proof.
  intros k k' v h Hk. unfold hdr_set. rewrite hdr_get_app, hdr_get_delete.
  apply String.eqb_neq in Hk. rewrite Hk. cbn. rewrite Hk.
  destruct (hdr_get k h); reflexivity.
Qed.

(** Claim C7: the [acceptOCIManifests] option has no effect: the client
    the constructor builds is the same whatever its value.  After a
    successful login, [getManifest] sends one request, for the manifest
    path, whose [accept] header is: with an effective [maxSchemaVersion]
    of 2, the entries of the client's own [accept] header, then the
    Schema-V2 manifest type, then the manifest-list type when manifest
    lists are accepted, joined by a comma and a space; with any other
    [maxSchemaVersion], the client's own [accept] header, else the JSON
    client's default [application/json].  No OCI media type is ever
    listed. *)
Theorem manifest_accept_header :
  (forall P o b, RegistryClientV2 P (with_acceptOCIManifests b o) = RegistryClientV2 P o) /\
  forall P opts st s1,
  client_login P None st = (s1, Ok tt) ->
  let c := cl s1 in
  let aml := match g_acceptManifestLists opts with
             | Some b => b | None => c_acceptManifestLists (cl st) end in
  let msv := match g_maxSchemaVersion opts with
             | Some v => v | None => c_maxSchemaVersion (cl st) end in
  let prev := hdr_get "accept" (_headers c) in
  exists rq, sent (fst (getManifest P opts st)) = (sent s1 ++ [rq])%list /\
    rq_path rq = manifest_path P c (g_ref opts) /\
    hdr_get "accept" (rq_headers rq) =
      Some (if msv =? 2 then
              JS.join ", " (match prev with Some a => split_comma_space a | None => [] end
                            ++ [MEDIATYPE_MANIFEST_V2]
                            ++ (if aml then [MEDIATYPE_MANIFEST_LIST_V2] else []))%list
            else match prev with Some a => a | None => "application/json" end).
Proof.
  split; [intros P o b; reflexivity|].
  intros P opts st s1 Hl. cbv zeta.
  pose proof (getManifest_step P opts st s1 Hl) as G. cbv zeta in G.
  eexists. split; [|split].
  - destruct (existsb _ _).
    + rewrite G. destruct (_ && _)%bool; reflexivity.
    + destruct G as [e [G _]]. rewrite G. reflexivity.
  - reflexivity.
  - cbn [rq_headers]. unfold request_headers.
    rewrite hdr_get_set_other by discriminate.
    unfold manifest_headers. destruct (_ =? 2).
    + unfold hdr_has. rewrite hdr_get_set_same. cbn [negb andb].
      rewrite hdr_get_set_same. reflexivity.
    + unfold hdr_has. destruct (hdr_get "accept" (_headers (cl s1))) eqn:Ea.
      * cbn [negb andb]. exact Ea.
      * cbn [negb andb dj_accept mk_djclient].
        replace (String.eqb "application/json" "") with false by reflexivity.
        cbn [negb]. apply hdr_get_set_same.
Qed.

(** The theorem on the getManifest example's client with
    [acceptOCIManifests: true], manifest lists accepted and
    [maxSchemaVersion: 2]: the header lists the two Docker types only. *)
Lemma manifest_accept_header_witness :
  RegistryClientV2 Demo.noauth_platform Demo.opts_oci
  = RegistryClientV2 Demo.noauth_platform (with_acceptOCIManifests None Demo.opts_oci) /\
  exists l rq, sent (fst (getManifest (Demo.platform (Demo.open_registry
                                         (Demo.json_resp Demo.v1_manifest)))
                            Demo.latest Demo.st_oci)) = (l ++ [rq])%list /\
    hdr_get "accept" (rq_headers rq)
    = Some (MEDIATYPE_MANIFEST_V2 ++ ", " ++ MEDIATYPE_MANIFEST_LIST_V2).
Proof.
  split; [symmetry; apply (proj1 manifest_accept_header)|].
  set (P := Demo.platform (Demo.open_registry (Demo.json_resp Demo.v1_manifest))).
  destruct (proj2 manifest_accept_header P Demo.latest Demo.st_oci
              (fst (client_login P None Demo.st_oci)) ltac:(vm_compute; reflexivity))
    as (rq & H1 & _ & H3).
  exists (sent (fst (client_login P None Demo.st_oci))), rq. split.
  - exact H1.
  - rewrite H3. vm_compute. reflexivity.
Defined.

(** The error [dockerError] builds carries the base message, a colon and
    the status. *)
Lemma dockerError_shape : forall r base e, dockerError r base = Ok e ->
  exists msg, e = Error (base ++ ": " ++ msg) (Some (status r)).
Proof.
  intros r base e H. unfold dockerError in H.
  destruct (if 400 <=? status r then _ else _) as [m1|e1]; cbn [bind_res] in H;
    [|discriminate H].
  destruct (if String.eqb m1 "" then _ else _) as [m2|e2]; cbn [bind_res] in H;
    [|discriminate H].
  injection H as H. exists m2. symmetry. exact H.
Qed.

(** A 4xx or 5xx response whose body fails its checks, without an HTML
    content type: [dockerJson] has consumed the body, so the fallback
    [dockerBody()] rejects with a [TypeError]. *)
Lemma dockerError_unreadable : forall r base,
  400 <= status r -> body_error r <> None ->
  (forall ct, hdr_get "content-type" (resp_headers r) = Some ct ->
              starts_with "text/html" ct = false) ->
  dockerError r base = Throw TypeError.
Proof.
  intros r base Hs Hb Hct. unfold dockerError, dockerJson, dockerBody, dockerBody_after.
  destruct (body_error r) as [m|]; [|congruence].
  apply Z.leb_le in Hs. rewrite Hs. cbn [bind_res].
  destruct (hdr_get "content-type" (resp_headers r)) as [ct|] eqn:Ec.
  - rewrite (Hct ct eq_refl). reflexivity.
  - reflexivity.
Qed.

(** Claim C2: after a successful login, a 401 answer to the manifest
    request makes [getManifest] throw: when [dockerError] builds its
    error [e] (message [base: msg], [base] the unexpected-status message),
    [getManifest] throws [Docker registry 401 Not Found: ] followed by the
    message of [e]; when reading the error body fails with [e'], it throws
    the request's own [base - and failed to parse error body: ...] error
    unchanged.  The second case is reached by every 401 whose body fails
    its checks without an HTML content type: the fallback reads the
    consumed body again and rejects with a [TypeError], so that 401 is not
    turned into the not-found error. *)
Theorem manifest_401_not_found : forall P opts st s1 r,
  client_login P None st = (s1, Ok tt) ->
  (forall rq, rq_path rq = manifest_path P (cl s1) (g_ref opts) -> p_fetch P rq = r) ->
  status r = 401 ->
  let base := unexpected_msg 401 (manifest_path P (cl s1) (g_ref opts)) in
  (forall e, dockerError r base = Ok e ->
     exists msg, e = Error (base ++ ": " ++ msg) (Some 401)) /\
  (forall m, dockerError r base = Ok (Error m (Some 401)) ->
     snd (getManifest P opts st) = Throw (Error ("Docker registry 401 Not Found: " ++ m) None)) /\
  (forall e', dockerError r base = Throw e' ->
     snd (getManifest P opts st) =
       Throw (Error (base ++ " - and failed to parse error body: " ++ JS.exn_message e') None)) /\
  (body_error r <> None ->
   (forall ct, hdr_get "content-type" (resp_headers r) = Some ct ->
               starts_with "text/html" ct = false) ->
   snd (getManifest P opts st) =
     Throw (Error (base ++ " - and failed to parse error body: "
                   ++ JS.exn_message TypeError) None)).
Proof.
  intros P opts st s1 r Hl Hf Hs base.
  pose proof (getManifest_step P opts st s1 Hl) as G. cbv zeta in G.
  erewrite Hf in G by reflexivity. rewrite Hs in G.
  assert (Hx : forall b : bool, existsb (Z.eqb 401)
             (if b then [200; 301; 302; 307] else [200]) = false) by (intros []; reflexivity).
  rewrite Hx in G. destruct G as [e [G Hh]].
  unfold unexpected_status_error in Hh. rewrite Hs in Hh. fold base in Hh.
  assert (H3 : forall e', dockerError r base = Throw e' ->
     snd (getManifest P opts st) =
       Throw (Error (base ++ " - and failed to parse error body: " ++ JS.exn_message e') None)).
  { intros e' He. rewrite He in Hh. rewrite G. cbn [snd]. f_equal.
    unfold manifest_401_handler, throwM, lift in Hh. injection Hh as <-. reflexivity. }
  split; [|split; [|split]].
  - intros e0 He. rewrite <- Hs. exact (dockerError_shape r base e0 He).
  - intros m He. rewrite He in Hh.
    destruct (dockerError_shape r base _ He) as [msg Hm]. injection Hm as Hm _.
    rewrite G. cbn [snd]. f_equal. rewrite Hm in Hh.
    unfold manifest_401_handler in Hh.
    cbv beta iota zeta delta [bindM lift throwM] in Hh.
    unfold base, unexpected_msg in Hh. cbn in Hh.
    injection Hh as <-. subst m. reflexivity.
  - exact H3.
  - intros Hb Hct. apply H3. apply dockerError_unreadable; [lia|exact Hb|exact Hct].
Qed.

(** The theorem on a registry answering its usual 401 error body, and on
    one whose 401 body fails its Content-Length check. *)
Lemma manifest_401_not_found_witness :
  snd (getManifest (Demo.platform (Demo.open_registry Demo.unauthorized_resp))
         Demo.latest Demo.st0)
  = Throw (Error ("Docker registry 401 Not Found: Received unexpected HTTP 401 from "
                  ++ "/v2/library/alpine/manifests/latest: "
                  ++ "(UNAUTHORIZED) authentication required") None) /\
  snd (getManifest (Demo.platform (Demo.open_registry Demo.unreadable_401))
         Demo.latest Demo.st0)
  = Throw (Error ("Received unexpected HTTP 401 from /v2/library/alpine/manifests/latest"
                  ++ " - and failed to parse error body: " ++ JS.exn_message TypeError) None).
Proof.
  split.
  - set (P := Demo.platform (Demo.open_registry Demo.unauthorized_resp)).
    refine (proj1 (proj2 (manifest_401_not_found P Demo.latest Demo.st0
      (fst (client_login P None Demo.st0)) Demo.unauthorized_resp _ _ _))
      ("Received unexpected HTTP 401 from /v2/library/alpine/manifests/latest: "
       ++ "(UNAUTHORIZED) authentication required") _).
    + vm_compute. reflexivity.
    + intros rq e. unfold P. cbn [p_fetch Demo.platform]. unfold Demo.open_registry.
      rewrite e. vm_compute. reflexivity.
    + reflexivity.
    + vm_compute. reflexivity.
  - set (P := Demo.platform (Demo.open_registry Demo.unreadable_401)).
    refine (proj2 (proj2 (proj2 (manifest_401_not_found P Demo.latest Demo.st0
      (fst (client_login P None Demo.st0)) Demo.unreadable_401 _ _ _))) _ _).
    + vm_compute. reflexivity.
    + intros rq e. unfold P. cbn [p_fetch Demo.platform]. unfold Demo.open_registry.
      rewrite e. vm_compute. reflexivity.
    + reflexivity.
    + vm_compute. discriminate.
    + intros ct Hc. vm_compute in Hc. discriminate Hc.
Defined.

End ManifestClaims.

Module TokenClaims.
Import ManifestClaims.

(** Claim C8: the token endpoint's answer.  With [rq] the token request
    and [r] the response, [_getToken]: throws the unexpected-status error
    on any status but 200 and 401; always throws on 401, with [Registry
    401 - Auth failed: msg] when the body holds [errors: [{message: msg}]]
    (and no truthy [body] property); a 401 body object without [body],
    [errors], [message] and [toString] properties, such as [{details}],
    gives [Registry 401 - Auth failed: [object Object]], since the
    [details] branch of [_getRegistryErrorMessage] reads [err.body.details]
    and the parsed body is passed as [err]; on 200 returns the body's
    [token] when it is a string and else throws the missing-token
    error. *)
Theorem token_endpoint_outcome : forall P o st c path h,
  token_request P o = Ok (c, path, h) ->
  let rq := {| rq_method := "GET"; rq_url := dj_url c; rq_path := path;
               rq_headers := request_headers c h; rq_redirect := "manual" |} in
  let r := p_fetch P rq in
  let s1 := {| cl := cl st; sent := (sent st ++ [rq])%list; logins := logins st |} in
  (status r <> 200 -> status r <> 401 ->
     _getToken P o st = (s1, Throw (unexpected_status_error r path))) /\
  (status r = 401 -> exists e, _getToken P o st = (s1, Throw e)) /\
  (status r = 401 -> forall b e0 es msg, dockerJson r = Ok b ->
     JS.truthy (JS.prop b "body") = false ->
     JS.prop b "errors" = JArr (e0 :: es) -> JS.prop e0 "message" = JStr msg -> msg <> "" ->
     _getToken P o st = (s1, Throw (Error ("Registry 401 - Auth failed: " ++ msg) None))) /\
  (status r = 401 -> forall fs, dockerJson r = Ok (JObj fs) ->
     JS.assoc "body" fs = None -> JS.assoc "errors" fs = None ->
     JS.assoc "message" fs = None -> JS.assoc "toString" fs = None ->
     _getToken P o st = (s1, Throw (Error "Registry 401 - Auth failed: [object Object]" None))) /\
  (status r = 200 -> forall b t, body_json r = Some b -> JS.prop b "token" = JStr t ->
     _getToken P o st = (s1, Ok t)) /\
  (status r = 200 -> forall b, body_json r = Some b -> JS.nullish b = false ->
     (forall t, JS.prop b "token" <> JStr t) ->
     _getToken P o st =
       (s1, Throw (Error "authorization server did not include a token in the response" None))).
Proof.
  intros P o st c path h Htr rq r s1.
  assert (G : _getToken P o st =
            (s1, if existsb (Z.eqb (status r)) [200; 401]
                 then token_of_response r else Throw (unexpected_status_error r path))).
  { unfold _getToken. cbv beta iota zeta delta [bindM lift]. rewrite Htr.
    unfold request. fold rq r s1. destruct (existsb _ _); reflexivity. }
  split; [|split; [|split; [|split; [|split]]]].
  - intros H2 H4. rewrite G. cbn [existsb]. apply Z.eqb_neq in H2. apply Z.eqb_neq in H4.
    change (Z.eqb (status r) 200) with (status r =? 200). change (Z.eqb (status r) 401) with (status r =? 401).
    rewrite H2, H4. reflexivity.
  - intros H4. rewrite G, H4. cbn [existsb Z.eqb Pos.eqb orb]. unfold token_of_response. rewrite H4.
    cbn [Z.eqb Pos.eqb]. destruct (dockerJson r) as [b|e]; cbn [bind_res]; [|eauto].
    destruct (_getRegistryErrorMessage b) as [m|e]; cbn [bind_res]; [|eauto].
    destruct (JS.to_str m) as [ms|e]; cbn [bind_res]; eauto.
  - intros H4 b e0 es msg Hj Hb He Hm Hne. rewrite G, H4. cbn [existsb Z.eqb Pos.eqb orb].
    unfold token_of_response. rewrite H4, Hj. cbn [Z.eqb Pos.eqb bind_res].
    assert (Nb : JS.nullish b = false) by (destruct b; cbn in He |- *; congruence).
    assert (N0 : JS.nullish e0 = false) by (destruct e0; cbn in Hm |- *; congruence).
    unfold _getRegistryErrorMessage.
    rewrite !(get_prop_ok _ _ Nb). cbn [bind_res]. rewrite Hb. cbn [bind_res].
    rewrite He. cbn [JS.is_array bind_res].
    rewrite !(get_prop_ok (JArr (e0 :: es)) "0" eq_refl).
    change (JS.prop (JArr (e0 :: es)) "0") with e0. cbn [bind_res].
    rewrite !(get_prop_ok _ _ N0), Hm. cbn [bind_res JS.truthy].
    apply String.eqb_neq in Hne. rewrite Hne. cbn [negb bind_res JS.to_str]. reflexivity.
  - intros H4 fs Hj Hb He Hm Ht. rewrite G, H4. cbn [existsb Z.eqb Pos.eqb orb].
    unfold token_of_response. rewrite H4, Hj. cbn [Z.eqb Pos.eqb bind_res].
    unfold _getRegistryErrorMessage, JS.get_prop. cbn [JS.nullish JS.prop bind_res].
    rewrite Hb. cbn [JS.truthy bind_res]. rewrite He. cbn [JS.is_array bind_res].
    rewrite Hm. cbn [JS.truthy bind_res JS.to_str]. rewrite Ht. reflexivity.
  - intros H2 b t Hj Ht. rewrite G, H2. cbn [existsb Z.eqb Pos.eqb orb]. unfold token_of_response.
    rewrite H2. cbn [Z.eqb Pos.eqb]. unfold resp_json. rewrite Hj. cbn [bind_res].
    assert (Nb : JS.nullish b = false) by (destruct b; cbn in Ht |- *; congruence).
    rewrite (get_prop_ok _ _ Nb), Ht. reflexivity.
  - intros H2 b Hj Nb Ht. rewrite G, H2. cbn [existsb Z.eqb Pos.eqb orb]. unfold token_of_response.
    rewrite H2. cbn [Z.eqb Pos.eqb]. unfold resp_json. rewrite Hj. cbn [bind_res].
    rewrite (get_prop_ok _ _ Nb).  cbn [bind_res].
    destruct (JS.prop b "token"); try reflexivity. exfalso. eapply Ht. reflexivity.
Qed.

(** The theorem on a token server answering [{token: abc}], and on one
    answering a 401 with the body [{details: ...}]. *)
Lemma token_endpoint_outcome_witness :
  snd (_getToken (Demo.platform (fun _ => Demo.json_resp (JObj [("token", JStr "abc")])))
         Demo.token_opts Demo.st0) = Ok "abc" /\
  snd (_getToken (Demo.platform (fun _ => Demo.resp 401 [] "{}"
                                   (Some (JObj [("details", JStr "bad credentials")]))))
         Demo.token_opts Demo.st0)
  = Throw (Error "Registry 401 - Auth failed: [object Object]" None).
Proof.
  split.
  - set (P := Demo.platform (fun _ => Demo.json_resp (JObj [("token", JStr "abc")]))).
    destruct (token_request P Demo.token_opts) as [[[c path] h]|e] eqn:Htr;
      [|vm_compute in Htr; discriminate Htr].
    destruct (token_endpoint_outcome P Demo.token_opts Demo.st0 c path h Htr)
      as (_ & _ & _ & _ & H200 & _).
    rewrite (H200 eq_refl (JObj [("token", JStr "abc")]) "abc" eq_refl eq_refl).
    reflexivity.
  - set (P := Demo.platform (fun _ => Demo.resp 401 [] "{}"
                                   (Some (JObj [("details", JStr "bad credentials")])))).
    destruct (token_request P Demo.token_opts) as [[[c path] h]|e] eqn:Htr;
      [|vm_compute in Htr; discriminate Htr].
    destruct (token_endpoint_outcome P Demo.token_opts Demo.st0 c path h Htr)
      as (_ & _ & _ & H401 & _).
    rewrite (H401 eq_refl [("details", JStr "bad credentials")]); reflexivity.
Defined.

End TokenClaims.
Module ExtraParserFacts.
Import WWWAuth ParserFacts.

Lemma sapp_assoc : forall a b c : string, (a ++ b) ++ c = a ++ b ++ c.
Proof. induction a as [|x a IH]; intros; simpl; [reflexivity|]. rewrite IH. reflexivity. Qed.

Lemma sapp_nil_r : forall a : string, a ++ "" = a.
Proof. induction a as [|x a IH]; simpl; [reflexivity|]. rewrite IH. reflexivity. Qed.

Lemma no_sep_app : forall a b, no_sep (a ++ b) = no_sep a && no_sep b.
Proof.
  induction a as [|x a IH]; intros b; simpl; [reflexivity|].
  rewrite IH. apply andb_assoc.
Qed.

Lemma no_space_app : forall a b, no_space (a ++ b) = no_space a && no_space b.
Proof.
  induction a as [|x a IH]; intros b; simpl; [reflexivity|].
  rewrite IH. apply andb_assoc.
Qed.

Lemma all_chars_app : forall p a b, all_chars p (a ++ b) = all_chars p a && all_chars p b.
Proof.
  intros p. induction a as [|x a IH]; intros b; simpl; [reflexivity|].
  rewrite IH. apply andb_assoc.
Qed.

Lemma rev_string_app : forall a b, rev_string (a ++ b) = rev_string b ++ rev_string a.
Proof.
  induction a as [|x a IH]; intros b; simpl.
  - rewrite sapp_nil_r. reflexivity.
  - rewrite IH, sapp_assoc. reflexivity.
Qed.

Lemma rev_string_involutive : forall a, rev_string (rev_string a) = a.
Proof.
  induction a as [|x a IH]; simpl; [reflexivity|].
  rewrite rev_string_app, IH. reflexivity.
Qed.

Lemma no_space_rev : forall a, no_space (rev_string a) = no_space a.
Proof.
  induction a as [|x a IH]; simpl; [reflexivity|].
  rewrite no_space_app, IH. simpl. rewrite andb_true_r. apply andb_comm.
Qed.

Lemma drop_space_no_space : forall a, no_space a = true -> drop_while is_space a = a.
Proof.
  destruct a as [|x a]; simpl; intros H; [reflexivity|].
  apply andb_prop in H as [Hx _]. apply negb_true_iff in Hx. rewrite Hx. reflexivity.
Qed.

(** [trim] leaves a string without white space as it is. *)
Lemma trim_no_space : forall a, no_space a = true -> trim a = a.
Proof.
  intros a H. unfold trim. rewrite (drop_space_no_space a H).
  rewrite drop_space_no_space by (rewrite no_space_rev; exact H).
  apply rev_string_involutive.
Qed.

Lemma key_ok_facts : forall k, key_ok k = true ->
  k <> "" /\ no_sep k = true /\ no_space k = true.
Proof.
  intros k H. unfold key_ok in H.
  apply andb_prop in H as [H H3]. apply andb_prop in H as [H1 H2].
  apply negb_true_iff, String.eqb_neq in H1. auto.
Qed.

Lemma token_ok_facts : forall v, token_ok v = true ->
  v <> "" /\ no_sep v = true /\ trim v = v.
Proof.
  intros v H. unfold token_ok in H.
  apply andb_prop in H as [H H3]. apply andb_prop in H as [H1 H2].
  apply negb_true_iff, String.eqb_neq in H1. apply String.eqb_eq in H3. auto.
Qed.

Lemma split_seps_piece_sep : forall p c t, no_sep p = true -> is_sep c = true ->
  split_seps (p ++ String c t) = p :: String c "" :: split_seps t.
Proof.
  intros p c t Hp Hc. rewrite split_seps_app_sep by exact Hc.
  rewrite split_seps_no_sep by exact Hp. reflexivity.
Qed.

Lemma step_empty : forall c, step c "" = c.
Proof. intros [[|[|[|[|[|[|[|[|[|[|st]]]]]]]]]] k v p|p e]; reflexivity. Qed.

(** A piece of a quoted value is appended to it. *)
Lemma step_quoted_piece : forall key acc parms p, no_sep p = true ->
  step (Run 3 key (Some acc) parms) p = Run 3 key (Some (acc ++ p)) parms.
Proof.
  intros key acc parms p Hp. destruct (String.eqb p "") eqn:E.
  - apply String.eqb_eq in E. subst p. rewrite step_empty, sapp_nil_r. reflexivity.
  - apply String.eqb_neq in E.
    destruct (no_sep_tokens p E Hp) as (H1 & _ & H3 & _).
    cbn [step]. rewrite H1, H3. reflexivity.
Qed.

Lemma code_34 : forall c, code c = 34 -> String c "" = DQ.
Proof.
  intros c H. unfold code in H. unfold DQ, chr. f_equal.
  rewrite <- (ascii_nat_embedding c). f_equal. lia.
Qed.

Lemma DQ_nonempty : String.eqb DQ "" = false.
Proof. reflexivity. Qed.

Lemma is_sep_34 : forall c, code c = 34 -> is_sep c = true.
Proof. intros c H. unfold is_sep. rewrite H. reflexivity. Qed.

(** The tokens of a quoted value and its closing quote leave the value in
    the parser's [value], in state 8. *)
Lemma quoted_run : forall v p acc key parms rest, no_sep p = true ->
  fold_left step (split_seps (p ++ quote_body v ++ DQ ++ rest)) (Run 3 key (Some acc) parms)
  = fold_left step (split_seps rest) (Run 8 key (Some (acc ++ p ++ v)) parms).
Proof.
  induction v as [|c v IH]; intros p acc key parms rest Hp; cbn [quote_body].
  - change ("" ++ DQ ++ rest) with (String (ascii_of_nat 34) rest).
    rewrite split_seps_piece_sep by (exact Hp || reflexivity).
    cbn [fold_left]. rewrite step_quoted_piece by exact Hp.
    cbn [step]. unfold DQ, chr at 1. rewrite String.eqb_refl.
    rewrite sapp_nil_r. reflexivity.
  - destruct (code c =? 34) eqn:E34.
    + apply Z.eqb_eq in E34.
      pose proof (is_sep_34 c E34) as Hc.
      change (String c (String c (quote_body v)) ++ DQ ++ rest)
        with (String c (String c (quote_body v ++ DQ ++ rest))).
      rewrite split_seps_piece_sep by assumption.
      cbn [split_seps]. rewrite Hc.
      cbn [fold_left]. rewrite step_quoted_piece by exact Hp.
      rewrite (code_34 c E34).
      cbn [step]. rewrite DQ_nonempty, String.eqb_refl. rewrite step_empty.
      cbn [step]. rewrite DQ_nonempty, String.eqb_refl. cbn [str_of].
      specialize (IH "" ((acc ++ p) ++ DQ) key parms rest eq_refl).
      cbn [String.append] in IH. rewrite IH.
      replace (String c v) with (DQ ++ v) by (rewrite <- (code_34 c E34); reflexivity).
      f_equal. f_equal. rewrite !sapp_assoc. reflexivity.
    + destruct (is_sep c) eqn:Hc.
      * change (String c (quote_body v) ++ DQ ++ rest)
          with (String c (quote_body v ++ DQ ++ rest)).
        rewrite split_seps_piece_sep by assumption.
        cbn [fold_left]. rewrite step_quoted_piece by exact Hp.
        assert (String.eqb DQ (String c "") = false) as Hq.
        { apply String.eqb_neq. intros Eq. unfold DQ, chr in Eq.
          injection Eq as Eq. subst c. discriminate. }
        cbn [step]. rewrite Hq. cbn [str_of].
        change (String.eqb (String c "") "") with false.
        specialize (IH "" ((acc ++ p) ++ String c "") key parms rest eq_refl).
        cbn [String.append] in IH. etransitivity; [exact IH|].
        f_equal. f_equal. rewrite !sapp_assoc. reflexivity.
      * assert (p ++ String c (quote_body v) ++ DQ ++ rest
                = (p ++ String c "") ++ quote_body v ++ DQ ++ rest) as Ep
          by (rewrite sapp_assoc; reflexivity).
        rewrite Ep, IH.
        -- f_equal. f_equal. rewrite !sapp_assoc. reflexivity.
        -- rewrite no_sep_app, Hp. simpl. rewrite Hc. reflexivity.
Qed.

Lemma key_tokens : forall k key value parms T, key_ok k = true ->
  fold_left step (split_seps (k ++ "=" ++ T)) (Run 0 key value parms)
  = fold_left step (split_seps T) (Run 2 (Some k) value parms).
Proof.
  intros k key value parms T H.
  destruct (key_ok_facts k H) as (Hne & Hs & Hsp).
  destruct (no_sep_tokens k Hne Hs) as (H1 & _ & _ & _).
  change ("=" ++ T) with (String "=" T).
  rewrite split_seps_piece_sep by (exact Hs || reflexivity).
  cbn [fold_left]. cbn [step]. rewrite H1. rewrite (trim_no_space k Hsp).
  reflexivity.
Qed.

(** A parameter followed by a comma. *)
Lemma param_comma : forall k v key value parms T, key_ok k = true ->
  fold_left step (split_seps (render_param (k, v) ++ "," ++ T)) (Run 0 key value parms)
  = fold_left step (split_seps T) (Run 0 (Some k) (Some v) (obj_set k v parms)).
Proof.
  intros k v key value parms T Hk. unfold render_param.
  destruct (token_ok v) eqn:Ht.
  - destruct (token_ok_facts v Ht) as (Hne & Hs & Htr).
    destruct (no_sep_tokens v Hne Hs) as (H1 & _ & H3 & _).
    rewrite !sapp_assoc, key_tokens by exact Hk.
    change ("," ++ T) with (String "," T).
    rewrite split_seps_piece_sep by (exact Hs || reflexivity).
    cbn [fold_left]. cbn [step]. rewrite H1, H3, Htr. reflexivity.
  - rewrite !sapp_assoc, key_tokens by exact Hk.
    change (DQ ++ quote_body v ++ DQ ++ "," ++ T)
      with (String (ascii_of_nat 34) ("" ++ quote_body v ++ DQ ++ "," ++ T)).
    cbn [split_seps]. change (is_sep (ascii_of_nat 34)) with true. cbn iota.
    cbn [fold_left]. rewrite step_empty.
    cbn [step]. change (String.eqb DQ (String (ascii_of_nat 34) "")) with true. cbn iota.
    transitivity (fold_left step (split_seps ("," ++ T)) (Run 8 (Some k) (Some v) parms));
      [exact (quoted_run v "" "" (Some k) parms ("," ++ T) eq_refl)|].
    change ("," ++ T) with (String "," T). cbn [split_seps].
    change (is_sep ",") with true. cbn iota. cbn [fold_left].
    rewrite step_empty. reflexivity.
Qed.

(** A parameter at the end of the text. *)
Lemma param_end : forall k v key value parms, key_ok k = true ->
  finish (fold_left step (split_seps (render_param (k, v))) (Run 0 key value parms))
  = (obj_set k v parms, None).
Proof.
  intros k v key value parms Hk. unfold render_param.
  destruct (token_ok v) eqn:Ht.
  - destruct (token_ok_facts v Ht) as (Hne & Hs & Htr).
    destruct (no_sep_tokens v Hne Hs) as (H1 & _ & H3 & _).
    rewrite key_tokens by exact Hk.
    rewrite split_seps_no_sep by exact Hs.
    cbn [fold_left]. cbn [step]. rewrite H1, H3, Htr. reflexivity.
  - rewrite key_tokens by exact Hk.
    rewrite <- (sapp_nil_r (DQ ++ quote_body v ++ DQ)), !sapp_assoc.
    change (DQ ++ quote_body v ++ DQ ++ "")
      with (String (ascii_of_nat 34) ("" ++ quote_body v ++ DQ ++ "")).
    cbn [split_seps]. change (is_sep (ascii_of_nat 34)) with true. cbn iota.
    cbn [fold_left]. rewrite step_empty.
    cbn [step]. change (String.eqb DQ (String (ascii_of_nat 34) "")) with true. cbn iota.
    transitivity (finish (fold_left step (split_seps "") (Run 8 (Some k) (Some v) parms)));
      [f_equal; exact (quoted_run v "" "" (Some k) parms "" eq_refl)|].
    reflexivity.
Qed.

(** The parser on a rendered parameter list makes the assignments of the
    list in order. *)
Lemma params_run : forall l key value parms,
  Forall (fun kv => key_ok (fst kv) = true) l ->
  finish (fold_left step (split_seps (render_params l)) (Run 0 key value parms))
  = (assign_all l parms, None).
Proof.
  induction l as [|[k v] l IH]; intros key value parms Hl; [reflexivity|].
  inversion Hl as [|? ? Hk Hl']; subst. simpl in Hk.
  destruct l as [|kv' l'].
  - apply param_end. exact Hk.
  - unfold render_params. cbn [map JS.join].
    rewrite param_comma by exact Hk. apply IH. exact Hl'.
Qed.

Lemma parse_params_render : forall l,
  Forall (fun kv => key_ok (fst kv) = true) l ->
  parse_params [] (render_params l) = (assign_all l [], None).
Proof. intros l Hl. unfold parse_params. apply params_run. exact Hl. Qed.

Lemma obj_get_none : forall k o, ~ In k (map fst o) -> obj_get k o = None.
Proof.
  intros k. induction o as [|[k' v'] o IH]; intros H; [reflexivity|].
  simpl in H. cbn [obj_get]. destruct (String.eqb k k') eqn:E.
  - apply String.eqb_eq in E. subst. tauto.
  - apply IH. tauto.
Qed.

Lemma obj_set_fresh : forall k v o, ~ In k (map fst o) -> array_index k = None ->
  obj_set k v o = (o ++ [(k, v)])%list.
Proof.
  intros k v o H Hi. unfold obj_set. rewrite obj_get_none by exact H.
  rewrite Hi. reflexivity.
Qed.

Lemma assign_all_fresh : forall l o, NoDup (map fst (o ++ l)) ->
  Forall (fun kv => array_index (fst kv) = None) l ->
  assign_all l o = (o ++ l)%list.
Proof.
  induction l as [|[k v] l IH]; intros o H Hi; unfold assign_all; cbn [fold_left].
  - rewrite app_nil_r. reflexivity.
  - inversion Hi as [|? ? Hk Hi']; subst. simpl in Hk.
    rewrite obj_set_fresh by
      (exact Hk || (rewrite map_app in H; simpl in H;
                    apply NoDup_remove_2 in H; rewrite in_app_iff in H; tauto)).
    fold (assign_all l (o ++ [(k, v)])%list).
    rewrite IH; rewrite <- ?app_assoc; [reflexivity|exact H|exact Hi'].
Qed.

Lemma obj_get_update : forall k k' v o, obj_get k' o <> None ->
  obj_get k (obj_update k' v o) = if String.eqb k k' then Some v else obj_get k o.
Proof.
  intros k k' v. induction o as [|[k1 v1] o IH]; intros Hp; [cbn in Hp; congruence|].
  cbn [obj_update obj_get] in *.
  destruct (String.eqb k' k1) eqn:E1.
  - apply String.eqb_eq in E1. subst k1. cbn [obj_get].
    destruct (String.eqb k k'); reflexivity.
  - cbn [obj_get]. rewrite IH by exact Hp.
    destruct (String.eqb k k1) eqn:E2; [|reflexivity].
    apply String.eqb_eq in E2. subst k1.
    destruct (String.eqb k k') eqn:E3; [|reflexivity].
    apply String.eqb_eq in E3. subst. rewrite String.eqb_refl in E1. discriminate.
Qed.

Lemma obj_get_insert_index : forall k k' n v o, obj_get k' o = None ->
  obj_get k (obj_insert_index n k' v o) = if String.eqb k k' then Some v else obj_get k o.
Proof.
  intros k k' n v. induction o as [|[k1 v1] o IH]; intros Hn; [reflexivity|].
  cbn [obj_get] in Hn. destruct (String.eqb k' k1) eqn:E1; [discriminate|].
  cbn [obj_insert_index].
  assert (obj_get k ((k', v) :: (k1, v1) :: o)
          = if String.eqb k k' then Some v else obj_get k ((k1, v1) :: o)) as Hh
    by reflexivity.
  destruct (array_index k1) as [n'|]; [destruct (n' <? n)|]; try exact Hh.
  cbn [obj_get]. rewrite IH by exact Hn.
  destruct (String.eqb k k1) eqn:E2; [|reflexivity].
  apply String.eqb_eq in E2. subst k1.
  destruct (String.eqb k k') eqn:E3; [|reflexivity].
  apply String.eqb_eq in E3. subst. rewrite String.eqb_refl in E1. discriminate.
Qed.

Lemma obj_get_append : forall k k' v o, obj_get k' o = None ->
  obj_get k (o ++ [(k', v)])%list = if String.eqb k k' then Some v else obj_get k o.
Proof.
  intros k k' v. induction o as [|[k1 v1] o IH]; intros Hn.
  - cbn. destruct (String.eqb k k'); reflexivity.
  - cbn [obj_get] in Hn. destruct (String.eqb k' k1) eqn:E1; [discriminate|].
    cbn [app obj_get]. rewrite IH by exact Hn.
    destruct (String.eqb k k1) eqn:E2; [|reflexivity].
    apply String.eqb_eq in E2. subst k1.
    destruct (String.eqb k k') eqn:E3; [|reflexivity].
    apply String.eqb_eq in E3. subst. rewrite String.eqb_refl in E1. discriminate.
Qed.

Lemma obj_get_set : forall k k' v o,
  obj_get k (obj_set k' v o) = if String.eqb k k' then Some v else obj_get k o.
Proof.
  intros k k' v o. unfold obj_set.
  destruct (obj_get k' o) eqn:Hg.
  - apply obj_get_update. congruence.
  - destruct (array_index k').
    + apply obj_get_insert_index. exact Hg.
    + apply obj_get_append. exact Hg.
Qed.

Lemma last_value_acc : forall k l acc,
  fold_left (fun acc kv => if String.eqb k (fst kv) then Some (snd kv) else acc) l acc
  = match last_value k l with Some v => Some v | None => acc end.
Proof.
  intros k. unfold last_value.
  induction l as [|[k1 v1] l IH]; intros acc; cbn [fold_left fst snd]; [reflexivity|].
  rewrite (IH (if String.eqb k k1 then Some v1 else acc)).
  rewrite (IH (if String.eqb k k1 then Some v1 else None)).
  destruct (fold_left _ l None); [reflexivity|].
  destruct (String.eqb k k1); reflexivity.
Qed.

Lemma last_value_cons : forall k k1 v1 l,
  last_value k ((k1, v1) :: l)
  = match last_value k l with Some v => Some v | None => if String.eqb k k1 then Some v1 else None end.
Proof. intros. unfold last_value at 1. cbn [fold_left fst snd]. apply last_value_acc. Qed.

Lemma obj_get_assign_all : forall k l o,
  obj_get k (assign_all l o) = match last_value k l with Some v => Some v | None => obj_get k o end.
Proof.
  intros k. induction l as [|[k1 v1] l IH]; intros o; [reflexivity|].
  unfold assign_all. cbn [fold_left fst snd]. fold (assign_all l (obj_set k1 v1 o)).
  rewrite IH, obj_get_set, last_value_cons. clear IH.
  destruct (last_value k l); [reflexivity|].
  destruct (String.eqb k k1); reflexivity.
Qed.


Lemma take_while_all : forall p s, all_chars p s = true -> take_while p s = s.
Proof.
  intros p. induction s as [|c t IH]; simpl; intros H; [reflexivity|].
  apply andb_prop in H as [Hc Ht]. rewrite Hc, IH by exact Ht. reflexivity.
Qed.

Lemma word_then_space : forall sch rest, all_chars is_word sch = true ->
  take_while is_word (sch ++ String " " rest) = sch /\
  drop_while is_word (sch ++ String " " rest) = String " " rest.
Proof.
  induction sch as [|c t IH]; intros rest H; simpl.
  - split; reflexivity.
  - simpl in H. apply andb_prop in H as [Hc Ht]. rewrite Hc.
    destruct (IH rest Ht) as [-> ->]. split; reflexivity.
Qed.

(** The challenge regex on [scheme params]: group 1 is the scheme and
    group 2 the parameter text. *)
Lemma ParseAuth_scheme_params : forall sch rest,
  sch <> "" -> all_chars is_word sch = true ->
  drop_while is_space rest = rest ->
  all_chars (fun c => negb (is_line_term c)) rest = true ->
  ParseAuth_match (sch ++ " " ++ rest) = Some (sch, rest).
Proof.
  intros sch rest Hne Hw Hsp Hlt.
  assert (match_at (sch ++ " " ++ rest) = Some (sch, rest)) as Hm.
  { unfold match_at. change (" " ++ rest) with (String " " rest).
    destruct (word_then_space sch rest Hw) as [-> ->].
    destruct sch as [|c t]; [congruence|].
    change (is_space " ") with true. cbn iota.
    change (drop_while is_space (String " " rest)) with (drop_while is_space rest).
    rewrite Hsp, take_while_all by exact Hlt. reflexivity. }
  destruct sch as [|c t]; [congruence|].
  cbn [String.append ParseAuth_match]. cbn [String.append] in Hm. rewrite Hm. reflexivity.
Qed.

Lemma no_space_no_line_term : forall s, no_space s = true ->
  all_chars (fun c => negb (is_line_term c)) s = true.
Proof.
  induction s as [|c t IH]; simpl; intros H; [reflexivity|].
  apply andb_prop in H as [Hc Ht]. rewrite IH by exact Ht. rewrite andb_true_r.
  unfold is_space, is_line_term in *. apply negb_true_iff in Hc. apply negb_true_iff.
  destruct (code c =? 10) eqn:E1.
  - apply Z.eqb_eq in E1. rewrite E1 in Hc. discriminate.
  - destruct (code c =? 13) eqn:E2; [|reflexivity].
    apply Z.eqb_eq in E2. rewrite E2 in Hc. discriminate.
Qed.

Lemma quote_body_chars : forall p v, p (ascii_of_nat 34) = true ->
  all_chars p (quote_body v) = all_chars p v.
Proof.
  intros p v Hq. induction v as [|c t IH]; [reflexivity|]. cbn [quote_body].
  destruct (code c =? 34) eqn:E; cbn [all_chars]; rewrite IH; [|reflexivity].
  apply Z.eqb_eq in E. pose proof (code_34 c E) as Ec. unfold DQ, chr in Ec.
  injection Ec as ->. rewrite Hq. reflexivity.
Qed.

Definition no_lt (s : string) : bool := all_chars (fun c => negb (is_line_term c)) s.

Lemma render_param_no_lt : forall k v, key_ok k = true -> no_lt v = true ->
  no_lt (render_param (k, v)) = true.
Proof.
  intros k v Hk Hv. destruct (key_ok_facts k Hk) as (_ & _ & Hsp).
  pose proof (no_space_no_line_term k Hsp) as Hk'.
  unfold no_lt in *. unfold render_param.
  destruct (token_ok v); rewrite !all_chars_app, Hk'; simpl; [exact Hv|].
  rewrite quote_body_chars by reflexivity. rewrite Hv. reflexivity.
Qed.

Lemma render_params_no_lt : forall l,
  Forall (fun kv => key_ok (fst kv) = true /\ no_lt (snd kv) = true) l ->
  no_lt (render_params l) = true.
Proof.
  induction l as [|[k v] l IH]; intros H; [reflexivity|].
  inversion H as [|? ? [Hk Hv] H']; subst. simpl in Hk, Hv.
  unfold render_params. destruct l as [|kv' l'].
  - apply render_param_no_lt; assumption.
  - cbn [map JS.join]. unfold no_lt in *. rewrite !all_chars_app.
    rewrite render_param_no_lt by assumption. simpl. apply IH. exact H'.
Qed.

Lemma render_params_lead : forall l, Forall (fun kv => key_ok (fst kv) = true) l ->
  drop_while is_space (render_params l) = render_params l.
Proof.
  intros [|[k v] l] H; [reflexivity|].
  inversion H as [|? ? Hk _]; subst. simpl in Hk.
  destruct (key_ok_facts k Hk) as (Hne & _ & Hsp).
  assert (exists s, render_params ((k, v) :: l) = k ++ s) as [s ->].
  { unfold render_params, render_param. cbn [map].
    destruct l as [|kv' l']; cbn [JS.join];
      destruct (token_ok v); eexists; rewrite ?sapp_assoc; reflexivity. }
  destruct k as [|c t]; [congruence|].
  simpl in Hsp. apply andb_prop in Hsp as [Hc _]. apply negb_true_iff in Hc.
  cbn [String.append drop_while]. rewrite Hc. reflexivity.
Qed.

End ExtraParserFacts.

Module MalformedFacts.
Import WWWAuth ParserFacts ExtraParserFacts.











End MalformedFacts.

Module ParserClaims.
Import WWWAuth ParserFacts ExtraParserFacts MalformedFacts.





(** Claim C10: a challenge without whitespace, such as the bare scheme
    [Basic], makes [new Parse_WWW_Authenticate] throw a [TypeError] (the
    dereference of the [null] match) instead of recording an error in
    [err]; [_parseWWWAuthenticate] lets it through, and so does the login
    of a client against a registry whose [/v2/] answers 401 with that
    challenge. *)
Theorem scheme_only_challenge_throws : forall chal,
  chal <> "" -> no_space chal = true ->
  Parse_WWW_Authenticate chal = Throw TypeError /\
  _parseWWWAuthenticate chal = Throw TypeError /\
  snd (client_login (Demo.platform (challenge_only chal)) None Demo.st0) = Throw TypeError.
Proof.
  intros chal Hne Hns.
  assert (Parse_WWW_Authenticate chal = Throw TypeError) as HP.
  { unfold Parse_WWW_Authenticate.
    rewrite (ChallengeRegexFacts.ParseAuth_no_space chal Hns). reflexivity. }
  assert (_parseWWWAuthenticate chal = Throw TypeError) as HP'.
  { unfold _parseWWWAuthenticate. rewrite HP. reflexivity. }
  split; [exact HP|]. split; [exact HP'|].
  destruct chal as [|c t]; [congruence|].
  lazy -[_parseWWWAuthenticate]. rewrite HP'. reflexivity.
Qed.

(** The theorem at the challenge [Basic]. *)
Lemma scheme_only_challenge_throws_witness :
  snd (client_login (Demo.platform (challenge_only "Basic")) None Demo.st0) = Throw TypeError.
Proof.
  apply (scheme_only_challenge_throws "Basic"); [discriminate | reflexivity].
Defined.

End ParserClaims.

Module ExtraParser.
Import WWWAuth ParserFacts ExtraParserFacts.

(** The parameter parser assigns the parameters of a well-formed list in
    order: it reports no error, and each name maps to the value of its last
    occurrence, at the place of its first occurrence. *)
Theorem parse_params_last_value : forall l,
  Forall (fun kv => key_ok (fst kv) = true) l ->
  snd (parse_params [] (render_params l)) = None /\
  forall k, obj_get k (fst (parse_params [] (render_params l))) = last_value k l.
Proof.
  intros l Hl. rewrite parse_params_render by exact Hl. split; [reflexivity|].
  intros k. cbn [fst]. rewrite obj_get_assign_all.
  destruct (last_value k l); reflexivity.
Qed.

Lemma parse_params_last_value_witness :
  snd (parse_params [] (render_params [("realm", "a"); ("scope", "x,y"); ("realm", "b")])) = None /\
  forall k, obj_get k (fst (parse_params [] (render_params [("realm", "a"); ("scope", "x,y"); ("realm", "b")])))
            = last_value k [("realm", "a"); ("scope", "x,y"); ("realm", "b")].
Proof.
  apply parse_params_last_value. repeat constructor.
Defined.

(** [Parse_WWW_Authenticate] on a challenge [scheme k1=v1,k2=v2,...] with
    distinct well-formed names, none of them an array index, and no line
    break gives back the scheme and the parameters, in order, with no
    error. *)
Theorem challenge_roundtrip : forall sch l,
  sch <> "" -> all_chars is_word sch = true ->
  Forall (fun kv => key_ok (fst kv) = true /\ no_lt (snd kv) = true) l ->
  NoDup (map fst l) ->
  Forall (fun kv => array_index (fst kv) = None) l ->
  Parse_WWW_Authenticate (sch ++ " " ++ render_params l)
  = Ok {| scheme := sch; parms := l; err := None |}.
Proof.
  intros sch l Hne Hw Hl Hd Hi.
  assert (Forall (fun kv => key_ok (fst kv) = true) l) as Hk.
  { eapply Forall_impl; [|exact Hl]. intros kv [H _]. exact H. }
  unfold Parse_WWW_Authenticate.
  rewrite ParseAuth_scheme_params; auto using render_params_lead, render_params_no_lt.
  rewrite parse_params_render by exact Hk.
  rewrite assign_all_fresh by assumption. reflexivity.
Qed.

Lemma challenge_roundtrip_witness :
  Parse_WWW_Authenticate
    ("Bearer" ++ " " ++ render_params [("realm", "https://auth.example/token");
                                       ("service", "registry.example");
                                       ("scope", "repository:library/alpine:pull,push")])
  = Ok {| scheme := "Bearer";
          parms := [("realm", "https://auth.example/token");
                    ("service", "registry.example");
                    ("scope", "repository:library/alpine:pull,push")];
          err := None |}.
Proof.
  apply challenge_roundtrip.
  - discriminate.
  - reflexivity.
  - repeat constructor.
  - repeat constructor; simpl; intuition discriminate.
  - repeat constructor.
Defined.

(** [Parse_Authentication_Info] on a parameter list with distinct
    well-formed names, none of them an array index, gives the [Digest]
    scheme and the parameters, in order, with no error. *)
Theorem authentication_info_roundtrip : forall l,
  Forall (fun kv => key_ok (fst kv) = true) l ->
  NoDup (map fst l) ->
  Forall (fun kv => array_index (fst kv) = None) l ->
  Parse_Authentication_Info (render_params l)
  = {| scheme := "Digest"; parms := l; err := None |}.
Proof.
  intros l Hk Hd Hi. unfold Parse_Authentication_Info.
  rewrite parse_params_render by exact Hk.
  rewrite assign_all_fresh by assumption. reflexivity.
Qed.

Lemma authentication_info_roundtrip_witness :
  Parse_Authentication_Info
    (render_params [("nextnonce", "a b " ++ DQ ++ "c" ++ DQ); ("qop", "auth")])
  = {| scheme := "Digest";
       parms := [("nextnonce", "a b " ++ DQ ++ "c" ++ DQ); ("qop", "auth")];
       err := None |}.
Proof.
  apply authentication_info_roundtrip.
  - repeat constructor.
  - repeat constructor; simpl; intuition discriminate.
  - repeat constructor.
Defined.

End ExtraParser.

Module ExtraErrMessage.

Lemma map_res_messages : forall es ms,
  Forall2 (fun e m => JS.nullish e = false /\ JS.prop e "message" = JStr m) es ms ->
  map_res (fun o => JS.get_prop o "message") es = Ok (map JStr ms).
Proof.
  intros es ms H. induction H as [|e m es ms [Hn Hm] _ IH]; [reflexivity|].
  assert (JS.get_prop e "message" = Ok (JStr m)) as Hg
    by (unfold JS.get_prop; rewrite Hn, Hm; reflexivity).
  cbn [map_res]. rewrite Hg. cbn [bind_res]. rewrite IH. reflexivity.
Qed.

Lemma join_values_strings : forall sep ms,
  join_values sep (map JStr ms) = Ok (JS.join sep ms).
Proof.
  intros sep ms. unfold join_values.
  assert (map_res (fun x => if JS.nullish x then Ok "" else JS.to_str x) (map JStr ms) = Ok ms) as ->.
  { induction ms as [|m ms IH]; [reflexivity|]. cbn [map map_res]. rewrite IH. reflexivity. }
  reflexivity.
Qed.

(** For a registry error document [{errors: [...]}] whose entries all
    carry a string [message], [_getRegistryErrMessage] gives the messages
    joined by [, ], for any number of entries: the message itself for one
    entry, and the empty string for none. *)
Theorem errmsg_joined_messages : forall JSON_parse fs es ms,
  JS.assoc "hasOwnProperty" fs = None ->
  JS.assoc "errors" fs = Some (JArr es) ->
  Forall2 (fun e m => JS.nullish e = false /\ JS.prop e "message" = JStr m) es ms ->
  _getRegistryErrMessage JSON_parse (JObj fs) = Ok (JStr (JS.join ", " ms)).
Proof.
  intros JSON_parse fs es ms Hh He Hes.
  unfold _getRegistryErrMessage. cbn [JS.truthy negb].
  unfold errmsg_from_obj, has_own. cbn [is_object negb]. rewrite Hh, He.
  cbn [bind_res negb]. unfold JS.get_prop at 1. cbn [JS.nullish JS.prop]. rewrite He.
  cbn [bind_res JS.is_array negb]. unfold JS.get_prop at 1. cbn [JS.nullish JS.prop].
  change (String.eqb "length" "length") with true. cbn iota. cbn [bind_res].
  destruct Hes as [|e m es' ms' [Hn Hm] Hes'].
  - reflexivity.
  - destruct Hes' as [|e2 m2 es'' ms'' H2 Hes''].
    + cbn [List.length]. change (JS.eq_num (JNum (Z.of_nat 1)) 1) with true. cbn iota.
      unfold JS.get_prop at 1. cbn [JS.nullish]. change (JS.prop (JArr [e]) "0") with e.
      cbn [bind_res]. unfold JS.get_prop. rewrite Hn, Hm. reflexivity.
    + cbn [List.length].
      assert (JS.eq_num (JNum (Z.of_nat (S (S (List.length es''))))) 1 = false) as ->.
      { cbn [JS.eq_num]. apply Z.eqb_neq. lia. }
      rewrite (map_res_messages (e :: e2 :: es'') (m :: m2 :: ms''))
        by (constructor; [auto|constructor; auto]).
      cbn [bind_res]. rewrite join_values_strings. reflexivity.
Qed.

Lemma errmsg_joined_messages_witness :
  _getRegistryErrMessage (fun _ => None)
    (JObj [("errors", JArr [JObj [("code", JStr "DENIED"); ("message", JStr "denied")];
                            JObj [("code", JStr "UNKNOWN"); ("message", JStr "unknown")]])])
  = Ok (JStr (JS.join ", " ["denied"; "unknown"])).
Proof.
  apply (errmsg_joined_messages (fun _ => None) _
           [JObj [("code", JStr "DENIED"); ("message", JStr "denied")];
            JObj [("code", JStr "UNKNOWN"); ("message", JStr "unknown")]]);
    [reflexivity | reflexivity | repeat constructor].
Defined.

(** A body given as JSON text of at most 10000 characters is treated as the
    value it parses to, when that value is neither a string nor [null]. *)
Theorem errmsg_json_text : forall JSON_parse t v,
  t <> "" -> (String.length t <= MAX_REGISTRY_ERROR_LENGTH)%nat ->
  JSON_parse t = Some v ->
  (forall s, v <> JStr s) -> v <> JNull ->
  _getRegistryErrMessage JSON_parse (JStr t) = _getRegistryErrMessage JSON_parse v.
Proof.
  intros JSON_parse t v Hne Hlen Hp Hs Hn.
  unfold _getRegistryErrMessage at 1. cbn [JS.truthy].
  apply String.eqb_neq in Hne. rewrite Hne. cbn [negb].
  apply Nat.leb_le in Hlen. rewrite Hlen, Hp.
  unfold _getRegistryErrMessage.
  destruct v as [| |b|n|s|l|fs]; try reflexivity.
  - congruence.
  - destruct b; reflexivity.
  - cbn [JS.truthy]. destruct (n =? 0); reflexivity.
  - exfalso. exact (Hs s eq_refl).
Qed.

Lemma errmsg_json_text_witness :
  _getRegistryErrMessage (fun t => if String.eqb t "{}" then Some (JObj []) else None) (JStr "{}")
  = _getRegistryErrMessage (fun t => if String.eqb t "{}" then Some (JObj []) else None) (JObj []).
Proof.
  apply errmsg_json_text.
  - discriminate.
  - vm_compute. lia.
  - reflexivity.
  - discriminate.
  - discriminate.
Defined.

(** A non-empty body text that is not JSON is returned as it is when it has
    at most 10000 characters; a longer text is not parsed and gives
    [null]. *)
Theorem errmsg_plain_text : forall JSON_parse t,
  t <> "" ->
  ((String.length t <= MAX_REGISTRY_ERROR_LENGTH)%nat -> JSON_parse t = None ->
   _getRegistryErrMessage JSON_parse (JStr t) = Ok (JStr t)) /\
  ((MAX_REGISTRY_ERROR_LENGTH < String.length t)%nat ->
   _getRegistryErrMessage JSON_parse (JStr t) = Ok JNull).
Proof.
  intros JSON_parse t Hne. apply String.eqb_neq in Hne.
  unfold _getRegistryErrMessage. cbn [JS.truthy]. rewrite Hne. cbn [negb].
  split.
  - intros Hlen Hp. apply Nat.leb_le in Hlen. rewrite Hlen, Hp. reflexivity.
  - intros Hlen. apply Nat.leb_gt in Hlen. rewrite Hlen. reflexivity.
Qed.

Lemma errmsg_plain_text_witness :
  ((String.length "unauthorized" <= MAX_REGISTRY_ERROR_LENGTH)%nat ->
   (fun _ : string => @None jsval) "unauthorized" = None ->
   _getRegistryErrMessage (fun _ => None) (JStr "unauthorized") = Ok (JStr "unauthorized")) /\
  ((MAX_REGISTRY_ERROR_LENGTH < String.length "unauthorized")%nat ->
   _getRegistryErrMessage (fun _ => None) (JStr "unauthorized") = Ok JNull).
Proof. apply errmsg_plain_text. discriminate. Defined.

(** An object body with an own [hasOwnProperty] member makes the call
    [obj.hasOwnProperty('errors')] throw a [TypeError] (a JSON value is
    never a function); any other object body without an own [errors]
    member, or whose [errors] is not an array, gives [null]. *)
Theorem errmsg_without_errors_array : forall JSON_parse fs,
  (JS.assoc "hasOwnProperty" fs <> None ->
   _getRegistryErrMessage JSON_parse (JObj fs) = Throw TypeError) /\
  (JS.assoc "hasOwnProperty" fs = None ->
   (forall es, JS.assoc "errors" fs <> Some (JArr es)) ->
   _getRegistryErrMessage JSON_parse (JObj fs) = Ok JNull).
Proof.
  intros JSON_parse fs. split.
  - intros Hh. unfold _getRegistryErrMessage. cbn [JS.truthy negb].
    unfold errmsg_from_obj, has_own. cbn [is_object negb].
    destruct (JS.assoc "hasOwnProperty" fs); [reflexivity|congruence].
  - intros Hh He.
    unfold _getRegistryErrMessage. cbn [JS.truthy negb].
    unfold errmsg_from_obj, has_own. cbn [is_object negb]. rewrite Hh.
    destruct (JS.assoc "errors" fs) as [e|] eqn:E; cbn [bind_res negb]; [|reflexivity].
    unfold JS.get_prop. cbn [JS.nullish JS.prop]. rewrite E. cbn [bind_res].
    destruct e; try reflexivity. exfalso. exact (He _ eq_refl).
Qed.

Lemma errmsg_without_errors_array_witness :
  _getRegistryErrMessage (fun _ => None)
    (JObj [("errors", JStr "denied"); ("hasOwnProperty", JNum 1)]) = Throw TypeError /\
  _getRegistryErrMessage (fun _ => None) (JObj [("errors", JStr "denied")]) = Ok JNull.
Proof.
  split.
  - apply (proj1 (errmsg_without_errors_array (fun _ => None)
                    [("errors", JStr "denied"); ("hasOwnProperty", JNum 1)])).
    discriminate.
  - apply (proj2 (errmsg_without_errors_array (fun _ => None) [("errors", JStr "denied")]));
      [reflexivity | discriminate].
Defined.

(** The JSON text [null] makes [_getRegistryErrMessage] throw a
    [TypeError]: [typeof null] is ['object'], and [null.hasOwnProperty]
    fails. *)
Theorem errmsg_null_text_throws : forall JSON_parse t,
  t <> "" -> (String.length t <= MAX_REGISTRY_ERROR_LENGTH)%nat ->
  JSON_parse t = Some JNull ->
  _getRegistryErrMessage JSON_parse (JStr t) = Throw TypeError.
Proof.
  intros JSON_parse t Hne Hlen Hp. apply String.eqb_neq in Hne. apply Nat.leb_le in Hlen.
  unfold _getRegistryErrMessage. cbn [JS.truthy]. rewrite Hne. cbn [negb].
  rewrite Hlen, Hp. reflexivity.
Qed.

Lemma errmsg_null_text_throws_witness :
  _getRegistryErrMessage (fun t => if String.eqb t "null" then Some JNull else None) (JStr "null")
  = Throw TypeError.
Proof.
  apply errmsg_null_text_throws; [discriminate | vm_compute; lia | reflexivity].
Defined.

End ExtraErrMessage.

Module ExtraClientFacts.

Lemma ping_run : forall P url ua st,
  let rq := ping_rq url (ua_or_default P ua) in
  let r := p_fetch P rq in
  ping P url ua st =
    ({| cl := cl st; sent := (sent st ++ [rq])%list; logins := logins st |},
     if existsb (Z.eqb (status r)) [200; 401; 404]
     then match dockerBody r with Ok _ => Ok r | Throw e => Throw e end
     else Throw (unexpected_status_error r "/v2/")).
Proof.
  intros P url ua st. cbv zeta. unfold ping_rq.
  unfold ping, bindM, request, lift, ret, mk_djclient. cbn [dj_url dj_userAgent dj_accept].
  destruct (existsb _ _); [|reflexivity].
  destruct (dockerBody _); reflexivity.
Qed.

Lemma supportsV2_run : forall P st,
  let c := cl st in
  let rq := ping_rq (_url c) (ua_or_default P (userAgent c)) in
  let r := p_fetch P rq in
  let header := hdr_get "docker-distribution-api-version" (resp_headers r) in
  supportsV2 P st =
    ({| cl := cl st; sent := (sent st ++ [rq])%list; logins := logins st |},
     if existsb (Z.eqb (status r)) [200; 401; 404] then
       match dockerBody r with
       | Ok _ =>
           Ok (if (truthy_str header
                   && existsb (String.eqb "registry/2.0") (split_ws_comma (or_empty header)))%bool
               then true else existsb (Z.eqb (status r)) [200; 401])
       | Throw e => Throw e
       end
     else match unexpected_status_error r "/v2/" with
          | Error _ (Some _) => Ok false
          | e => Throw e
          end).
Proof.
  intros P st. cbv zeta.
  unfold supportsV2, catchM, client_ping, bindM, get_cl, ret, throwM, lift.
  cbv beta iota.
  rewrite ping_run. cbv zeta.
  destruct (existsb _ [200; 401; 404]).
  - unfold dockerBody. destruct (body_error _); cbv beta iota; [reflexivity|].
    destruct (_ && _)%bool; reflexivity.
  - cbv beta iota. destruct (unexpected_status_error _ _) as [m [s|]| |]; reflexivity.
Qed.

Lemma split_ws_comma_nonempty : forall s, split_ws_comma s <> [].
Proof.
  induction s as [|c t IH]; cbn [split_ws_comma]; [discriminate|].
  destruct (is_ws_comma c).
  - destruct t as [|d u]; [discriminate|]. destruct (is_ws_comma d); [exact IH|discriminate].
  - destruct (split_ws_comma t); discriminate.
Qed.

End ExtraClientFacts.

Module ExtraClientFacts2.
Import ExtraParserFacts ExtraClientFacts.

Definition no_wsc (v : string) : bool := all_chars (fun ch => negb (is_ws_comma ch)) v.

Lemma split_ws_comma_prefix : forall v s, no_wsc v = true ->
  split_ws_comma (v ++ s) =
    match split_ws_comma s with h :: r => (v ++ h) :: r | [] => [v] end.
Proof.
  unfold no_wsc. induction v as [|c v IH]; intros s H; cbn [String.append].
  - destruct (split_ws_comma s) eqn:E; [now destruct (split_ws_comma_nonempty s)|reflexivity].
  - cbn [all_chars] in H. apply andb_prop in H as [Hc Hv]. apply negb_true_iff in Hc.
    cbn [split_ws_comma]. rewrite Hc, (IH s Hv).
    destruct (split_ws_comma s); reflexivity.
Qed.

Lemma split_ws_comma_sep : forall d u, is_ws_comma d = false ->
  split_ws_comma (", " ++ String d u) = "" :: split_ws_comma (String d u).
Proof.
  intros d u Hd. cbn [String.append split_ws_comma].
  change (is_ws_comma ",") with true. change (is_ws_comma " ") with true. cbn iota.
  rewrite Hd. reflexivity.
Qed.

(** [header.split(/[\s,]+/)] on versions joined by [, ]. *)
Lemma split_ws_comma_join : forall vs, vs <> [] ->
  Forall (fun v => v <> "" /\ no_wsc v = true) vs ->
  split_ws_comma (JS.join ", " vs) = vs.
Proof.
  induction vs as [|v vs IH]; intros Hne H; [congruence|].
  inversion H as [|? ? [Hv Hw] H']; subst.
  destruct vs as [|v2 vs'].
  - cbn [JS.join]. rewrite <- (sapp_nil_r v) at 1.
    rewrite split_ws_comma_prefix by exact Hw. cbn. rewrite sapp_nil_r. reflexivity.
  - inversion H' as [|? ? [Hv2 Hw2] _]; subst.
    change (JS.join ", " (v :: v2 :: vs')) with (v ++ ", " ++ JS.join ", " (v2 :: vs')).
    rewrite split_ws_comma_prefix by exact Hw.
    assert (exists d u, JS.join ", " (v2 :: vs') = String d u /\ is_ws_comma d = false)
      as (d & u & Ej & Hd).
    { destruct v2 as [|d u]; [congruence|].
      unfold no_wsc in Hw2. cbn [all_chars] in Hw2. apply andb_prop in Hw2 as [Hd _].
      apply negb_true_iff in Hd.
      destruct vs' as [|v3 vs'']; cbn [JS.join String.append]; eauto. }
    rewrite Ej, split_ws_comma_sep by exact Hd. rewrite <- Ej.
    rewrite IH by (discriminate || exact H'). rewrite sapp_nil_r. reflexivity.
Qed.

End ExtraClientFacts2.

Module ExtraSupportsV2.
Import ManifestClaims ExtraClientFacts ExtraClientFacts2.

(** [supportsV2] does not log in: it sends one [GET /v2/] request with only
    the [accept: application/json] and [user-agent] headers, and leaves the
    client as it is, whatever the outcome. *)
Theorem supportsV2_sends_only_ping : forall P st,
  exists rq, fst (supportsV2 P st) = {| cl := cl st; sent := (sent st ++ [rq])%list;
                                        logins := logins st |} /\
    rq_method rq = "GET" /\ rq_path rq = "/v2/" /\
    rq_headers rq = [("accept", "application/json");
                     ("user-agent", ua_or_default P (userAgent (cl st)))].
Proof.
  intros P st. eexists. rewrite supportsV2_run. cbn [fst].
  split; [reflexivity|]. split; [reflexivity|]. split; reflexivity.
Qed.

(** When the ping is answered with status 200, 401 or 404 and a readable
    body, and its [docker-distribution-api-version] header, split on runs
    of white space and commas, lists [registry/2.0], [supportsV2] returns
    [true], for a 404 too. *)
Theorem supportsV2_version_header : forall P st h,
  let r := p_fetch P (ping_rq (_url (cl st)) (ua_or_default P (userAgent (cl st)))) in
  existsb (Z.eqb (status r)) [200; 401; 404] = true ->
  body_error r = None ->
  hdr_get "docker-distribution-api-version" (resp_headers r) = Some h ->
  existsb (String.eqb "registry/2.0") (split_ws_comma h) = true ->
  snd (supportsV2 P st) = Ok true.
Proof.
  intros P st h r Hs Hb Hh Hin.
  rewrite supportsV2_run. cbv zeta. fold r. rewrite Hs. unfold dockerBody. rewrite Hb, Hh.
  cbn [or_empty]. rewrite Hin.
  assert (truthy_str (Some h) = true) as ->.
  { destruct h as [|ch h']; [discriminate Hin|reflexivity]. }
  reflexivity.
Qed.

Lemma supportsV2_version_header_witness :
  snd (supportsV2 (Demo.platform (fun _ => Demo.resp 404 [("docker-distribution-api-version",
                                                       " registry/2.0,, registry/2.1")] "" None))
                  Demo.st0) = Ok true.
Proof.
  apply (supportsV2_version_header _ _ " registry/2.0,, registry/2.1").
  - reflexivity.
  - reflexivity.
  - reflexivity.
  - vm_compute. reflexivity.
Defined.

(** Without [registry/2.0] in the version header, an accepted and readable
    ping answer makes [supportsV2] answer [true] unless its status is
    404. *)
Theorem supportsV2_status_answer : forall P st,
  let r := p_fetch P (ping_rq (_url (cl st)) (ua_or_default P (userAgent (cl st)))) in
  let header := hdr_get "docker-distribution-api-version" (resp_headers r) in
  existsb (Z.eqb (status r)) [200; 401; 404] = true ->
  body_error r = None ->
  existsb (String.eqb "registry/2.0") (split_ws_comma (or_empty header)) = false ->
  snd (supportsV2 P st) = Ok (negb (status r =? 404)).
Proof.
  intros P st r header Hs Hb Hv.
  rewrite supportsV2_run. cbv zeta. fold r. fold header. rewrite Hs. unfold dockerBody. rewrite Hb.
  rewrite Hv, andb_false_r. cbn [snd]. f_equal.
  clear header Hv. clearbody r. revert Hs.
  destruct (Z.eqb_spec (status r) 404) as [E|E].
  - rewrite E. reflexivity.
  - apply Z.eqb_neq in E. cbn [existsb]. rewrite E. cbn [negb].
    rewrite !orb_false_r. auto.
Qed.

Lemma supportsV2_status_answer_witness :
  snd (supportsV2 (Demo.platform (fun _ => Demo.resp 404 [] "" None)) Demo.st0) = Ok false.
Proof.
  apply (supportsV2_status_answer (Demo.platform (fun _ => Demo.resp 404 [] "" None)) Demo.st0);
    reflexivity.
Defined.

(** A ping answered with a status other than 200, 401 and 404 makes
    [supportsV2] answer [false], unless reading the error body fails: that
    failure carries no response and is rethrown. *)
Theorem supportsV2_unexpected_status : forall P st,
  let r := p_fetch P (ping_rq (_url (cl st)) (ua_or_default P (userAgent (cl st)))) in
  existsb (Z.eqb (status r)) [200; 401; 404] = false ->
  snd (supportsV2 P st) =
    match dockerError r (unexpected_msg (status r) "/v2/") with
    | Ok _ => Ok false
    | Throw e => Throw (Error (unexpected_msg (status r) "/v2/"
                               ++ " - and failed to parse error body: " ++ JS.exn_message e) None)
    end.
Proof.
  intros P st r Hs.
  rewrite supportsV2_run. cbv zeta. fold r. rewrite Hs. cbn [snd].
  unfold unexpected_status_error.
  destruct (dockerError r _) as [e|e] eqn:E; [|reflexivity].
  apply dockerError_shape in E as [m ->]. reflexivity.
Qed.

Lemma supportsV2_unexpected_status_witness :
  snd (supportsV2 (Demo.platform (fun _ => Demo.resp 500 [] "oops" None)) Demo.st0) = Ok false.
Proof.
  apply (supportsV2_unexpected_status (Demo.platform (fun _ => Demo.resp 500 [] "oops" None))
           Demo.st0).
  reflexivity.
Defined.

End ExtraSupportsV2.

Module ExtraRedirectFacts.

Section Loop.
Variable P : Platform.

(** A response the loop follows: a 302 or 307 with a location. *)
Definition followed (r : response) : bool :=
  ((status r =? 302) || (status r =? 307)) && truthy_str (hdr_get "location" (resp_headers r)).

Lemma redirect_loop_result : forall fuel ua method f maxR n req ress st st' out,
  redirect_loop P fuel ua method f maxR n req ress st = (st', Ok out) ->
  exists new, out = (ress ++ new)%list /\ new <> [] /\
    (List.length new <= fuel)%nat /\ Z.of_nat (List.length new) <= maxR - n /\
    Forall (fun r => followed r = true) (removelast new) /\
    (f = false -> List.length new = 1%nat).
Proof.
  induction fuel as [|fuel IH]; intros ua method f maxR n req ress st st' out; cbn [redirect_loop].
  - destruct (n <? maxR); intros E; discriminate E.
  - destruct (n <? maxR) eqn:Hn; [|intros E; discriminate E].
    apply Z.ltb_lt in Hn.
    unfold bindM at 1.
    destruct (request P _ _ _ _ _ _ st) as [s1 [resp|e]]; [|intros E; discriminate E].
    assert (forall st'', (st'', Ok (ress ++ [resp])%list) = (st', Ok out) ->
              exists new, out = (ress ++ new)%list /\ new <> [] /\
                (List.length new <= S fuel)%nat /\ Z.of_nat (List.length new) <= maxR - n /\
                Forall (fun r => followed r = true) (removelast new) /\
                (f = false -> List.length new = 1%nat)) as Hone.
    { intros st'' E. injection E as _ <-. exists [resp].
      split; [reflexivity|]. split; [discriminate|]. split; [cbn; lia|].
      split; [cbn; lia|]. split; [constructor|reflexivity]. }
    destruct f; cbn [negb]; [|apply Hone].
    destruct ((status resp =? 302) || (status resp =? 307))%bool eqn:Hs; cbn [negb];
      [|apply Hone].
    destruct (truthy_str (hdr_get "location" (resp_headers resp))) eqn:Hl; cbn [negb];
      [|apply Hone].
    destruct (p_url_resolve P _ _ _) as [[origin href]|]; [|intros E; discriminate E].
    unfold bindM at 1, lift.
    destruct (dockerBody resp); [|intros E; discriminate E].
    intros E. apply IH in E as (new & -> & Hne & Hlen & Hz & Hf & _).
    exists (resp :: new). rewrite <- app_assoc. split; [reflexivity|].
    split; [discriminate|]. split; [cbn; lia|]. split; [cbn [List.length]; lia|].
    split.
    + destruct new as [|r0 new']; [congruence|].
      change (removelast (resp :: r0 :: new')) with (resp :: removelast (r0 :: new')).
      constructor; [|exact Hf]. unfold followed. rewrite Hs, Hl. reflexivity.
    + discriminate.
Qed.

Lemma makeHttpRequest_result : forall opts st st' ress,
  _makeHttpRequest P opts st = (st', Ok ress) ->
  let maxRedirects := match m_maxRedirects opts with Some n => n | None => 3 end in
  ress <> [] /\ Z.of_nat (List.length ress) <= maxRedirects /\
  Forall (fun r => followed r = true) (removelast ress) /\
  (m_followRedirects opts = Some false -> List.length ress = 1%nat).
Proof.
  intros opts st st' ress E. cbv zeta. unfold _makeHttpRequest, bindM, get_cl in E.
  apply redirect_loop_result in E as (new & -> & Hne & _ & Hz & Hf & H1).
  cbn [app]. split; [exact Hne|]. split; [lia|]. split; [exact Hf|].
  intros Hs. apply H1. rewrite Hs. reflexivity.
Qed.

Lemma headOrGetBlob_nonempty : forall m d st st' ress,
  _headOrGetBlob P m d st = (st', Ok ress) -> ress <> [].
Proof.
  intros m d st st' ress E. unfold _headOrGetBlob, bindM at 1 in E.
  destruct (client_login P None st) as [s1 [[]|e]]; [|discriminate E].
  unfold bindM, get_cl in E.
  apply makeHttpRequest_result in E as [Hne _]. exact Hne.
Qed.

End Loop.

End ExtraRedirectFacts.

Module ExtraRedirect.
Import ExtraRedirectFacts.

(** Every list of responses [_makeHttpRequest] returns is non-empty and has
    at most [maxRedirects] responses (3 by default); every response but
    the last is a 302 or 307 with a location, and without following
    redirects there is exactly one response. *)
Theorem makeHttpRequest_responses : forall P opts st st' ress,
  _makeHttpRequest P opts st = (st', Ok ress) ->
  ress <> [] /\
  Z.of_nat (List.length ress) <= match m_maxRedirects opts with Some n => n | None => 3 end /\
  Forall (fun r => ((status r =? 302) || (status r =? 307))%bool = true /\
                   truthy_str (hdr_get "location" (resp_headers r)) = true) (removelast ress) /\
  (m_followRedirects opts = Some false -> List.length ress = 1%nat).
Proof.
  intros P opts st st' ress E.
  apply makeHttpRequest_result in E as (Hne & Hz & Hf & H1). cbv zeta in Hz.
  split; [exact Hne|]. split; [exact Hz|]. split; [|exact H1].
  eapply Forall_impl; [|exact Hf]. intros r Hr. unfold followed in Hr.
  apply andb_prop in Hr. exact Hr.
Qed.

Lemma makeHttpRequest_responses_witness :
  [Demo.resp 302 [("location", "https://cdn.example/b")] "" None;
   Demo.resp 302 [("location", "/c")] "" None;
   Demo.resp 200 [] "blob" None] <> [] /\
  Z.of_nat (List.length [Demo.resp 302 [("location", "https://cdn.example/b")] "" None;
                         Demo.resp 302 [("location", "/c")] "" None;
                         Demo.resp 200 [] "blob" None])
    <= match m_maxRedirects (Demo.blob_opts (cl Demo.st_auth) "/a") with
       | Some n => n | None => 3 end /\
  Forall (fun r => ((status r =? 302) || (status r =? 307))%bool = true /\
                   truthy_str (hdr_get "location" (resp_headers r)) = true)
    (removelast [Demo.resp 302 [("location", "https://cdn.example/b")] "" None;
                 Demo.resp 302 [("location", "/c")] "" None;
                 Demo.resp 200 [] "blob" None]) /\
  (m_followRedirects (Demo.blob_opts (cl Demo.st_auth) "/a") = Some false ->
   List.length [Demo.resp 302 [("location", "https://cdn.example/b")] "" None;
                Demo.resp 302 [("location", "/c")] "" None;
                Demo.resp 200 [] "blob" None] = 1%nat).
Proof.
  apply (makeHttpRequest_responses (Demo.platform (Demo.redirects Demo.chain2))
           (Demo.blob_opts (cl Demo.st_auth) "/a") Demo.st_auth
           (fst (_makeHttpRequest (Demo.platform (Demo.redirects Demo.chain2))
                   (Demo.blob_opts (cl Demo.st_auth) "/a") Demo.st_auth))).
  vm_compute. reflexivity.
Defined.

(** [headBlob] never fails on reading the last response: it returns exactly
    what [_headOrGetBlob] returns for a [HEAD] request. *)
Theorem headBlob_is_head_request : forall P digest st,
  headBlob P digest st = _headOrGetBlob P "HEAD" digest st.
Proof.
  intros P digest st. unfold headBlob, bindM at 1.
  destruct (_headOrGetBlob P "HEAD" digest st) as [s [ress|e]] eqn:E; [|reflexivity].
  apply headOrGetBlob_nonempty in E.
  destruct (rev ress) eqn:Er; [|reflexivity].
  exfalso. apply E. rewrite <- (rev_involutive ress), Er. reflexivity.
Qed.

End ExtraRedirect.

Module ExtraLoginFacts.
Import LoginFacts ExtraClientFacts.

(** [client.login()] on a client that is not logged in: the module-level
    [login], then the client updated with its result. *)
Lemma client_login_fresh : forall P st,
  _loggedIn (cl st) = false ->
  let c := cl st in
  let scope := login_scope c None in
  client_login P None st =
    let (s1, r) := login P (_url c) (c_username c) (c_password c) scope (userAgent c) false st in
    match r with
    | Ok ai => ({| cl := logged_in P c scope ai; sent := sent s1; logins := logins s1 |}, Ok tt)
    | Throw e => (s1, Throw e)
    end.
Proof.
  intros P st Hl. cbv zeta. unfold client_login, bindM at 1, get_cl. rewrite Hl. cbn [andb].
  unfold bindM at 1.
  destruct (login P _ _ _ _ _ _ st) as [s1 [ai|e]] eqn:E; [|reflexivity].
  apply login_effect in E as [Hc _]. unfold bindM, get_cl, put_cl. rewrite Hc. reflexivity.
Qed.

(** The module-level [login], once its ping is answered with [r]. *)
Lemma login_ping : forall P url u p scope ua ins st,
  let rq := ping_rq url (ua_or_default P ua) in
  let r := p_fetch P rq in
  let s1 := {| cl := cl st; sent := (sent st ++ [rq])%list;
               logins := (logins st ++ [scope])%list |} in
  existsb (Z.eqb (status r)) [200; 401; 404] = true ->
  body_error r = None ->
  login P url u p scope ua ins st =
    (if status r =? 200 then ret no_auth
     else if status r =? 401 then
       let chalHeader := hdr_get "www-authenticate" (resp_headers r) in
       if negb (truthy_str chalHeader) then throwM (Error missing_challenge_msg None) else
       let* authChallenge := lift (_parseWWWAuthenticate (or_empty chalHeader)) in
       let sch := to_lower (WWWAuth.scheme authChallenge) in
       if String.eqb sch "basic" then
         ret {| ai_type := Some "basic"; ai_username := u;
                ai_password := p; ai_token := None |}
       else if String.eqb sch "bearer" then
         let* token := _getToken P
           {| t_realm := WWWAuth.obj_get "realm" (WWWAuth.parms authChallenge);
              t_service := WWWAuth.obj_get "service" (WWWAuth.parms authChallenge);
              t_scopes := if String.eqb scope "" then [] else [scope];
              t_username := u; t_password := p;
              t_insecure := ins; t_userAgent := ua |} in
         ret {| ai_type := Some "bearer"; ai_username := None;
                ai_password := None; ai_token := Some token |}
       else throwM (Error ("unsupported auth scheme: " ++ DQ
                           ++ WWWAuth.scheme authChallenge ++ DQ) None)
     else throwM (Error ("HTTP " ++ JS.Z_to_string (status r)
                         ++ " from ping endpoint") None)) s1.
Proof.
  intros P url u p scope ua ins st rq r s1 Hs Hb.
  unfold login. unfold bindM at 1. cbn [record_login].
  unfold bindM at 1. rewrite ping_run. cbv zeta. fold rq r. rewrite Hs.
  unfold dockerBody. rewrite Hb. reflexivity.
Qed.

End ExtraLoginFacts.

Module ExtraLogin.
Import ManifestClaims ExtraClientFacts ExtraLoginFacts.

(** A login against a registry whose ping answers 200 needs no
    credentials: it succeeds, and leaves the client without an
    [authorization] header, even one built from its username and
    password. *)
Theorem login_open_registry_drops_authorization : forall P st,
  let c := cl st in
  let r := p_fetch P (ping_rq (_url c) (ua_or_default P (userAgent c))) in
  _loggedIn c = false -> status r = 200 -> body_error r = None ->
  snd (client_login P None st) = Ok tt /\
  _loggedIn (cl (fst (client_login P None st))) = true /\
  _authInfo (cl (fst (client_login P None st))) = Some no_auth /\
  hdr_get "authorization" (_headers (cl (fst (client_login P None st)))) = None.
Proof.
  intros P st c r Hl Hs Hb.
  rewrite client_login_fresh by exact Hl. cbv zeta.
  rewrite login_ping by (fold c r; rewrite ?Hs; reflexivity || exact Hb).
  fold c r. rewrite Hs. cbn.
  split; [reflexivity|]. split; [reflexivity|]. split; [reflexivity|].
  unfold _setAuthHeaderFromAuthInfo. cbn. rewrite hdr_get_delete. reflexivity.
Qed.

End ExtraLogin.

Module ExtraLoginW.
Import ExtraLogin.

Lemma login_open_registry_drops_authorization_witness :
  hdr_get "authorization"
    (_headers (cl (fst (client_login
       (Demo.platform (Demo.open_registry (Demo.resp 404 [] "" None))) None Demo.st_user))))
  = None.
Proof.
  apply (login_open_registry_drops_authorization
           (Demo.platform (Demo.open_registry (Demo.resp 404 [] "" None))) Demo.st_user);
    reflexivity.
Defined.

End ExtraLoginW.

Module ExtraLogin2.
Import ManifestClaims ExtraClientFacts ExtraLoginFacts.

(** A registry answering the ping with a Basic challenge: [login]
    succeeds without sending any other request, and the client then sends
    the Basic [authorization] header built from its username and
    password. *)
Theorem login_basic_challenge : forall P st chal ch u,
  let c := cl st in
  let rq := ping_rq (_url c) (ua_or_default P (userAgent c)) in
  let r := p_fetch P rq in
  _loggedIn c = false -> status r = 401 -> body_error r = None ->
  hdr_get "www-authenticate" (resp_headers r) = Some chal -> chal <> "" ->
  WWWAuth.Parse_WWW_Authenticate chal = Ok ch -> WWWAuth.err ch = None ->
  to_lower (WWWAuth.scheme ch) = "basic" ->
  c_username c = Some u -> u <> "" ->
  snd (client_login P None st) = Ok tt /\
  sent (fst (client_login P None st)) = (sent st ++ [rq])%list /\
  hdr_get "authorization" (_headers (cl (fst (client_login P None st))))
    = Some (_basicAuthHeader P u (or_empty (c_password c))).
Proof.
  intros P st chal ch u c rq r Hl Hs Hb Hh Hne Hp He Hsch Hu Hune.
  rewrite client_login_fresh by exact Hl. cbv zeta.
  rewrite login_ping by (fold c rq r; rewrite ?Hs; reflexivity || exact Hb).
  fold c rq r. rewrite Hs. cbn [Z.eqb Pos.eqb].
  rewrite Hh. unfold truthy_str. apply String.eqb_neq in Hne. rewrite Hne. cbn [negb].
  unfold bindM at 1, lift, _parseWWWAuthenticate. cbn [or_empty]. rewrite Hp. cbn [bind_res]. rewrite He. cbn [truthy_str].
  unfold bindM; cbv beta iota. rewrite Hsch. cbn [String.eqb Ascii.eqb Bool.eqb andb ret].
  split; [reflexivity|]. split; [reflexivity|].
  cbn [fst cl logged_in _headers]. unfold _setAuthHeaderFromAuthInfo.
  cbn [ai_token ai_username ai_password truthy_str].
  rewrite Hu. cbn [truthy_str]. apply String.eqb_neq in Hune. rewrite Hune. cbn [negb orb or_empty].
  apply hdr_get_set_same.
Qed.

End ExtraLogin2.

Module ExtraLogin2W.
Import ExtraLogin2.
Lemma login_basic_challenge_witness :
  hdr_get "authorization"
    (_headers (cl (fst (client_login (Demo.platform Demo.basic_registry) None Demo.st_user))))
  = Some (_basicAuthHeader (Demo.platform Demo.basic_registry) "alice" "pw").
Proof.
  apply (login_basic_challenge (Demo.platform Demo.basic_registry) Demo.st_user
           ("Basic realm=" ++ DQ ++ "reg" ++ DQ)
           {| WWWAuth.scheme := "Basic"; WWWAuth.parms := [("realm", "reg")];
              WWWAuth.err := None |} "alice");
    try (vm_compute; reflexivity); vm_compute; discriminate.
Defined.
End ExtraLogin2W.

Module ExtraLogin3.
Import ExtraClientFacts ExtraLoginFacts.

(** A ping answered with 404 makes [login] fail with
    [HTTP 404 from ping endpoint]: the client stays as it was (not logged
    in), and the only request sent is the ping. *)
Theorem login_ping_404 : forall P st,
  let c := cl st in
  let rq := ping_rq (_url c) (ua_or_default P (userAgent c)) in
  _loggedIn c = false -> status (p_fetch P rq) = 404 -> body_error (p_fetch P rq) = None ->
  client_login P None st =
    ({| cl := c; sent := (sent st ++ [rq])%list;
        logins := (logins st ++ [login_scope c None])%list |},
     Throw (Error "HTTP 404 from ping endpoint" None)).
Proof.
  intros P st c rq Hl Hs Hb.
  rewrite client_login_fresh by exact Hl. cbv zeta.
  rewrite login_ping by (fold c rq; rewrite ?Hs; reflexivity || exact Hb).
  fold c rq. rewrite Hs. reflexivity.
Qed.

(** A 401 ping without a [www-authenticate] header (or with an empty one)
    makes [login] fail with the missing-challenge error, the client
    unchanged. *)
Theorem login_missing_challenge : forall P st,
  let c := cl st in
  let r := p_fetch P (ping_rq (_url c) (ua_or_default P (userAgent c))) in
  _loggedIn c = false -> status r = 401 -> body_error r = None ->
  truthy_str (hdr_get "www-authenticate" (resp_headers r)) = false ->
  snd (client_login P None st) = Throw (Error missing_challenge_msg None) /\
  cl (fst (client_login P None st)) = c.
Proof.
  intros P st c r Hl Hs Hb Hh.
  rewrite client_login_fresh by exact Hl. cbv zeta.
  rewrite login_ping by (fold c r; rewrite ?Hs; reflexivity || exact Hb).
  fold c r. rewrite Hs. cbn [Z.eqb Pos.eqb]. rewrite Hh. split; reflexivity.
Qed.

(** A 401 ping whose challenge names a scheme other than Basic and Bearer
    (in any letter case) makes [login] fail with
    [unsupported auth scheme: "<scheme>"], the client unchanged. *)
Theorem login_unsupported_scheme : forall P st chal ch,
  let c := cl st in
  let r := p_fetch P (ping_rq (_url c) (ua_or_default P (userAgent c))) in
  _loggedIn c = false -> status r = 401 -> body_error r = None ->
  hdr_get "www-authenticate" (resp_headers r) = Some chal -> chal <> "" ->
  WWWAuth.Parse_WWW_Authenticate chal = Ok ch -> WWWAuth.err ch = None ->
  to_lower (WWWAuth.scheme ch) <> "basic" -> to_lower (WWWAuth.scheme ch) <> "bearer" ->
  snd (client_login P None st)
    = Throw (Error ("unsupported auth scheme: " ++ DQ ++ WWWAuth.scheme ch ++ DQ) None) /\
  cl (fst (client_login P None st)) = c.
Proof.
  intros P st chal ch c r Hl Hs Hb Hh Hne Hp He Hb1 Hb2.
  rewrite client_login_fresh by exact Hl. cbv zeta.
  rewrite login_ping by (fold c r; rewrite ?Hs; reflexivity || exact Hb).
  fold c r. rewrite Hs. cbn [Z.eqb Pos.eqb].
  rewrite Hh. unfold truthy_str. apply String.eqb_neq in Hne. rewrite Hne. cbn [negb].
  unfold bindM at 1, lift, _parseWWWAuthenticate. cbn [or_empty]. rewrite Hp.
  cbn [bind_res]. rewrite He. cbn [truthy_str].
  unfold bindM; cbv beta iota.
  apply String.eqb_neq in Hb1, Hb2. rewrite Hb1, Hb2. split; reflexivity.
Qed.

End ExtraLogin3.

Module ExtraLogin3W.
Import ExtraLogin3.

Lemma login_ping_404_witness :
  snd (client_login (Demo.platform (fun _ => Demo.resp 404 [] "" None)) None Demo.st0)
  = Throw (Error "HTTP 404 from ping endpoint" None).
Proof.
  rewrite (login_ping_404 (Demo.platform (fun _ => Demo.resp 404 [] "" None)) Demo.st0);
    reflexivity.
Defined.

Lemma login_missing_challenge_witness :
  snd (client_login (Demo.platform (fun _ => Demo.resp 401 [] "" None)) None Demo.st0)
  = Throw (Error missing_challenge_msg None).
Proof.
  apply (login_missing_challenge (Demo.platform (fun _ => Demo.resp 401 [] "" None)) Demo.st0);
    reflexivity.
Defined.

Lemma login_unsupported_scheme_witness :
  snd (client_login
         (Demo.platform (fun _ => Demo.resp 401 [("www-authenticate", "Digest realm=r")] "" None))
         None Demo.st0)
  = Throw (Error ("unsupported auth scheme: " ++ DQ ++ "Digest" ++ DQ) None).
Proof.
  apply (login_unsupported_scheme
           (Demo.platform (fun _ => Demo.resp 401 [("www-authenticate", "Digest realm=r")] "" None))
           Demo.st0 "Digest realm=r"
           {| WWWAuth.scheme := "Digest"; WWWAuth.parms := [("realm", "r")];
              WWWAuth.err := None |});
    try (vm_compute; reflexivity); vm_compute; discriminate.
Defined.

End ExtraLogin3W.

Module ExtraHeaderFacts.
Import ManifestClaims ExtraParserFacts.

Lemma join_cons_char : forall sep c h r,
  JS.join sep (String c h :: r) = String c (JS.join sep (h :: r)).
Proof. intros sep c h [|x r]; reflexivity. Qed.

Lemma split_comma_space_nonempty : forall s, split_comma_space s <> [].
Proof.
  intros [|c t]; [discriminate|]. cbn.
  destruct t as [|d u]; [destruct (split_comma_space EmptyString); discriminate|].
  destruct (_ && _)%bool; [discriminate|].
  destruct (split_comma_space (String d u)); discriminate.
Qed.

(** [s.split(', ').join(', ')] is [s]. *)
Lemma join_split_comma_space : forall s, JS.join ", " (split_comma_space s) = s.
Proof.
  assert (H : forall (n : nat) s, (String.length s <= n)%nat -> JS.join ", " (split_comma_space s) = s).
  { induction n as [|n IH]; intros s Hl.
    - destruct s; [reflexivity|cbn in Hl; lia].
    - destruct s as [|c t]; [reflexivity|]. cbn in Hl.
      assert (Ht : JS.join ", " (split_comma_space t) = t) by (apply IH; lia).
      assert (Hrest : JS.join ", "
                (match split_comma_space t with
                 | h :: r => String c h :: r
                 | [] => [String c EmptyString] end) = String c t).
      { pose proof (split_comma_space_nonempty t) as Hn.
        destruct (split_comma_space t) as [|h r]; [congruence|].
        rewrite join_cons_char, Ht. reflexivity. }
      cbn [split_comma_space]. destruct t as [|d u]; [exact Hrest|].
      destruct (Nat.eqb (nat_of_ascii c) 44 && Nat.eqb (nat_of_ascii d) 32)%bool eqn:E;
        [|exact Hrest].
      apply andb_true_iff in E as [E1 E2]. apply Nat.eqb_eq in E1, E2.
      assert (Hc : c = ","%char)
        by (rewrite <- (ascii_nat_embedding c), E1; reflexivity).
      assert (Hd : d = " "%char)
        by (rewrite <- (ascii_nat_embedding d), E2; reflexivity).
      subst c d. cbn in Hl.
      assert (Hu : JS.join ", " (split_comma_space u) = u) by (apply IH; lia).
      pose proof (split_comma_space_nonempty u) as Hn.
      destruct (split_comma_space u) as [|h r]; [congruence|].
      change (JS.join ", " (EmptyString :: h :: r))
        with (EmptyString ++ ", " ++ JS.join ", " (h :: r)).
      rewrite Hu. reflexivity. }
  intros s. apply (H (String.length s)). lia.
Qed.

Lemma join_app : forall sep l1 l2, l1 <> [] -> l2 <> [] ->
  JS.join sep (l1 ++ l2)%list = JS.join sep l1 ++ sep ++ JS.join sep l2.
Proof.
  intros sep l1 l2 H1 H2. induction l1 as [|x l1 IH]; [congruence|].
  destruct l1 as [|y l1].
  - cbn [app]. destruct l2; [congruence|]. reflexivity.
  - change ((x :: y :: l1) ++ l2)%list with (x :: ((y :: l1) ++ l2))%list.
    cbn [app] in IH |- *. change (JS.join sep (x :: y :: (l1 ++ l2)%list))
      with (x ++ sep ++ JS.join sep (y :: (l1 ++ l2)%list)).
    change (JS.join sep (x :: y :: l1)) with (x ++ sep ++ JS.join sep (y :: l1)).
    rewrite IH by discriminate. rewrite !sapp_assoc. reflexivity.
Qed.

End ExtraHeaderFacts.

Module ExtraHeaders.
Import ManifestClaims ExtraParserFacts ExtraHeaderFacts.

(** [DockerJsonClient.request] always sends the client's [user-agent];
    it keeps the caller's [accept] header and otherwise adds the client's
    [accept] when that is not empty; every other header is sent as the
    caller gave it. *)
Theorem request_headers_spec : forall c h k,
  k <> "user-agent" -> k <> "accept" ->
  hdr_get "user-agent" (request_headers c h) = Some (dj_userAgent c) /\
  hdr_get "accept" (request_headers c h)
    = match hdr_get "accept" h with
      | Some a => Some a
      | None => if String.eqb (dj_accept c) "" then None else Some (dj_accept c)
      end /\
  hdr_get k (request_headers c h) = hdr_get k h.
Proof.
  intros c h k Hk1 Hk2. unfold request_headers.
  split; [apply hdr_get_set_same|]. split.
  - rewrite hdr_get_set_other by discriminate. unfold hdr_has.
    destruct (hdr_get "accept" h) as [a|] eqn:Ea; cbn [negb andb]; [exact Ea|].
    destruct (String.eqb (dj_accept c) "") eqn:E; cbn [negb andb]; [exact Ea|].
    apply hdr_get_set_same.
  - rewrite hdr_get_set_other by exact Hk1.
    destruct (_ && _)%bool; [apply hdr_get_set_other, Hk2|reflexivity].
Qed.

(** [_setAuthHeaderFromAuthInfo] changes only the [authorization] header:
    [Bearer <token>] for a non-empty token, else the Basic header when the
    username or the password is non-empty, else no [authorization] at all. *)
Theorem setAuthHeader_spec : forall P h ai k,
  k <> "authorization" ->
  hdr_get k (_setAuthHeaderFromAuthInfo P h ai) = hdr_get k h /\
  hdr_get "authorization" (_setAuthHeaderFromAuthInfo P h ai)
    = if truthy_str (ai_token ai) then Some ("Bearer " ++ or_empty (ai_token ai))
      else if (truthy_str (ai_username ai) || truthy_str (ai_password ai))%bool
      then Some (_basicAuthHeader P (or_empty (ai_username ai)) (or_empty (ai_password ai)))
      else None.
Proof.
  intros P h ai k Hk. unfold _setAuthHeaderFromAuthInfo.
  destruct (truthy_str (ai_token ai));
    [|destruct (truthy_str (ai_username ai) || truthy_str (ai_password ai))%bool].
  - split; [apply hdr_get_set_other, Hk|apply hdr_get_set_same].
  - split; [apply hdr_get_set_other, Hk|apply hdr_get_set_same].
  - rewrite !hdr_get_delete. apply String.eqb_neq in Hk. rewrite Hk. split; reflexivity.
Qed.

(** With [maxSchemaVersion] 2 the manifest request keeps the client's
    [accept] value and appends the v2 manifest media type, then the
    manifest-list media type when lists are accepted; no other header
    changes.  With any other version the client's headers are sent as
    they are. *)
Theorem manifest_headers_accept : forall h aml msv k,
  k <> "accept" ->
  hdr_get "accept" (manifest_headers h aml 2)
    = Some ((match hdr_get "accept" h with Some a => a ++ ", " | None => "" end)
            ++ MEDIATYPE_MANIFEST_V2
            ++ (if aml then ", " ++ MEDIATYPE_MANIFEST_LIST_V2 else "")) /\
  hdr_get k (manifest_headers h aml 2) = hdr_get k h /\
  (msv <> 2 -> manifest_headers h aml msv = h).
Proof.
  intros h aml msv k Hk. split; [|split].
  - unfold manifest_headers. cbn [Z.eqb Pos.eqb]. rewrite hdr_get_set_same. f_equal.
    assert (Htail : JS.join ", " ([MEDIATYPE_MANIFEST_V2]
               ++ (if aml then [MEDIATYPE_MANIFEST_LIST_V2] else []))%list
             = MEDIATYPE_MANIFEST_V2 ++ (if aml then ", " ++ MEDIATYPE_MANIFEST_LIST_V2 else "")).
    { destruct aml; cbn [app]; [reflexivity|]. rewrite sapp_nil_r. reflexivity. }
    destruct (hdr_get "accept" h) as [a|].
    + rewrite join_app by (apply split_comma_space_nonempty || discriminate).
      rewrite join_split_comma_space, Htail, sapp_assoc. reflexivity.
    + exact Htail.
  - unfold manifest_headers. cbn [Z.eqb Pos.eqb]. apply hdr_get_set_other, Hk.
  - intros Hm. unfold manifest_headers. apply Z.eqb_neq in Hm. rewrite Hm. reflexivity.
Qed.

End ExtraHeaders.

Module ExtraHeadersW.
Import ExtraHeaders.

Lemma request_headers_spec_witness :
  hdr_get "authorization"
    (request_headers (mk_djclient "https://registry.example" "ua")
       [("authorization", "Bearer tok"); ("accept", "text/plain")])
  = Some "Bearer tok".
Proof.
  apply (request_headers_spec (mk_djclient "https://registry.example" "ua")
           [("authorization", "Bearer tok"); ("accept", "text/plain")] "authorization");
    discriminate.
Defined.

Lemma setAuthHeader_spec_witness :
  hdr_get "accept"
    (_setAuthHeaderFromAuthInfo (Demo.platform (fun _ => Demo.resp 200 [] "" None))
       [("accept", "text/plain")] Demo.bearer_tok)
  = Some "text/plain".
Proof.
  apply (setAuthHeader_spec (Demo.platform (fun _ => Demo.resp 200 [] "" None))
           [("accept", "text/plain")] Demo.bearer_tok "accept"); discriminate.
Defined.

Lemma manifest_headers_accept_witness :
  manifest_headers [("accept", "text/plain")] true 1 = [("accept", "text/plain")].
Proof.
  apply (manifest_headers_accept [("accept", "text/plain")] true 1 "user-agent");
    discriminate.
Defined.

End ExtraHeadersW.

Module ExtraClientFacts3.
Import ExtraParserFacts.

Lemma word_then_nonword : forall m x, all_chars is_word m = true ->
  match x with String c _ => is_word c = false | EmptyString => True end ->
  take_while is_word (m ++ x) = m /\ drop_while is_word (m ++ x) = x.
Proof.
  induction m as [|c t IH]; intros x H Hx.
  - destruct x as [|c x]; cbn; [split; reflexivity|]. rewrite Hx. split; reflexivity.
  - cbn [all_chars] in H. apply andb_prop in H as [Hc Ht].
    cbn [String.append take_while drop_while]. rewrite Hc.
    destruct (IH x Ht Hx) as [-> ->]. split; reflexivity.
Qed.

Lemma realm_scheme_word : forall m rest, m <> "" -> all_chars is_word m = true ->
  realm_scheme (m ++ "://" ++ rest) = Some m.
Proof.
  intros m rest Hm Hw. unfold realm_scheme.
  destruct (word_then_nonword m ("://" ++ rest) Hw) as [-> ->]; [reflexivity|].
  destruct m as [|c t]; [congruence|]. reflexivity.
Qed.

End ExtraClientFacts3.

Module ExtraClient3.
Import ExtraClientFacts3.

(** [_getToken] refuses a realm URL whose scheme is neither [http] nor
    [https]: it throws the unsupported-scheme error before sending any
    request. *)
Theorem getToken_unsupported_scheme : forall P o m rest st,
  t_realm o = Some (m ++ "://" ++ rest) ->
  m <> "" -> all_chars is_word m = true -> m <> "http" -> m <> "https" ->
  _getToken P o st
    = (st, Throw (Error ("unsupported scheme for WWW-Authenticate realm "
                         ++ DQ ++ (m ++ "://" ++ rest) ++ DQ ++ ": " ++ DQ ++ m ++ DQ) None)).
Proof.
  intros P o m rest st Hr Hm Hw H1 H2.
  unfold _getToken, bindM, lift, token_request. rewrite Hr. cbn [str_or_undef].
  rewrite realm_scheme_word by assumption.
  apply String.eqb_neq in H1, H2. rewrite H1, H2. reflexivity.
Qed.

(** Once [login] has succeeded, [listTags] sends one more request,
    [GET /v2/<remote name>/tags/list] with the client's headers, and
    returns its JSON body when the status is 200; any other status throws
    the unexpected-status error. *)
Theorem listTags_after_login : forall P st s1,
  client_login P None st = (s1, Ok tt) ->
  let c := cl s1 in
  let path := "/v2/" ++ p_encodeURI P (str_or_undef (remoteName c)) ++ "/tags/list" in
  let rq := {| rq_method := "GET"; rq_url := _url c; rq_path := path;
               rq_headers := request_headers (mk_djclient (_url c) (userAgent c)) (_headers c);
               rq_redirect := "manual" |} in
  let r := p_fetch P rq in
  listTags P st
    = ({| cl := c; sent := (sent s1 ++ [rq])%list; logins := logins s1 |},
       if status r =? 200 then dockerJson r else Throw (unexpected_status_error r path)).
Proof.
  intros P st s1 Hl c path rq r.
  unfold listTags. unfold bindM at 1. rewrite Hl.
  unfold bindM, get_cl, lift, request. cbn [dj_url mk_djclient]. fold c path rq r.
  cbn [existsb]. rewrite orb_false_r. destruct (status r =? 200); reflexivity.
Qed.

(** Once [login] has succeeded, [deleteManifest] sends one more request,
    [DELETE] on the manifest path; it succeeds on 200 and 202 unless the
    body is not valid JSON, and throws the unexpected-status error on any
    other status. *)
Theorem deleteManifest_after_login : forall P st s1 ref,
  client_login P None st = (s1, Ok tt) ->
  let c := cl s1 in
  let rq := {| rq_method := "DELETE"; rq_url := _url c; rq_path := manifest_path P c ref;
               rq_headers := request_headers (mk_djclient (_url c) (userAgent c)) (_headers c);
               rq_redirect := "manual" |} in
  let r := p_fetch P rq in
  deleteManifest P ref st
    = ({| cl := c; sent := (sent s1 ++ [rq])%list; logins := logins s1 |},
       if existsb (Z.eqb (status r)) [200; 202]
       then match dockerJson r with Ok _ => Ok tt | Throw e => Throw e end
       else Throw (unexpected_status_error r (manifest_path P c ref))).
Proof.
  intros P st s1 ref Hl c rq r.
  unfold deleteManifest. unfold bindM at 1. rewrite Hl.
  unfold bindM, get_cl, lift, ret, request. cbn [dj_url mk_djclient]. fold c rq r.
  destruct (existsb _ _); [|reflexivity].
  destruct (dockerJson r); reflexivity.
Qed.

End ExtraClient3.

Module ExtraClient3W.
Import ExtraClient3.

Lemma getToken_unsupported_scheme_witness :
  snd (_getToken (Demo.platform (fun _ => Demo.resp 200 [] "" None))
         {| t_realm := Some "ftp://auth.example/token"; t_service := None;
            t_scopes := []; t_username := None; t_password := None;
            t_insecure := false; t_userAgent := "" |} Demo.st0)
  = Throw (Error ("unsupported scheme for WWW-Authenticate realm "
                  ++ DQ ++ "ftp://auth.example/token" ++ DQ ++ ": " ++ DQ ++ "ftp" ++ DQ) None).
Proof.
  rewrite (getToken_unsupported_scheme (Demo.platform (fun _ => Demo.resp 200 [] "" None))
             {| t_realm := Some "ftp://auth.example/token"; t_service := None;
                t_scopes := []; t_username := None; t_password := None;
                t_insecure := false; t_userAgent := "" |} "ftp" "auth.example/token" Demo.st0);
    [reflexivity|reflexivity|discriminate|reflexivity|discriminate|discriminate].
Defined.

Lemma listTags_after_login_witness :
  snd (listTags (Demo.platform (Demo.open_registry
                  (Demo.resp 200 [] "{}" (Some (JObj [("tags", JArr [JStr "latest"])])))))
          Demo.st0)
  = Ok (JObj [("tags", JArr [JStr "latest"])]).
Proof.
  rewrite (listTags_after_login
             (Demo.platform (Demo.open_registry
                (Demo.resp 200 [] "{}" (Some (JObj [("tags", JArr [JStr "latest"])])))))
             Demo.st0
             (fst (client_login (Demo.platform (Demo.open_registry
                (Demo.resp 200 [] "{}" (Some (JObj [("tags", JArr [JStr "latest"])])))))
                None Demo.st0)));
    vm_compute; reflexivity.
Defined.

Lemma deleteManifest_after_login_witness :
  snd (deleteManifest (Demo.platform (Demo.open_registry (Demo.resp 202 [] "" None)))
         "sha256:abc" Demo.st0)
  = Ok tt.
Proof.
  rewrite (deleteManifest_after_login
             (Demo.platform (Demo.open_registry (Demo.resp 202 [] "" None)))
             Demo.st0
             (fst (client_login (Demo.platform (Demo.open_registry (Demo.resp 202 [] "" None)))
                None Demo.st0)) "sha256:abc");
    vm_compute; reflexivity.
Defined.

End ExtraClient3W.
